(** * Proof streaming broker: a shallow embedding of [src/proof_streaming.py]

    The development follows [ProofStreamingServer]: Python values, the
    [EventType] enumeration, the [StreamEvent] and [StreamFilter] data
    classes, the filter matching engine, the connection table, the
    subscription registry, the stream registry, the broadcaster and the
    metrics updater.  Handlers are embedded as state-passing functions in a
    small exception monad; the clock ([time.time()]) is an input of every
    handler that reads it. *)

From Stdlib Require Import ZArith QArith String Ascii List Lia.
From stdpp Require Import base option list gmap strings pretty.

Local Open Scope string_scope.
Local Open Scope list_scope.
Local Set Warnings "-register-all".

(** ** Python values and exceptions *)

(** The values the broker handles come out of [json.loads]: [None], booleans,
    integers, floats, strings, lists and objects.  Floats are modelled by
    rationals, so the development speaks of finite numbers only: [NaN] and
    the infinities, which [json.loads] also accepts, have no counterpart
    here. *)
Inductive value :=
| VNone
| VBool (b : bool)
| VInt (z : Z)
| VFloat (q : Q)
| VStr (s : string)
| VList (l : list value)
| VDict (d : list (string * value)).

(** Python truthiness, as used by [if x:] and [x or y]. *)
Definition truthy (v : value) : bool :=
  match v with
  | VNone => false
  | VBool b => b
  | VInt z => negb (z =? 0)%Z
  | VFloat q => negb (Qeq_bool q 0)
  | VStr s => negb (String.eqb s "")
  | VList l => match l with [] => false | _ => true end
  | VDict d => match d with [] => false | _ => true end
  end.

(** [type(v).__name__], which Python puts into its [TypeError] texts. *)
Definition py_typename (v : value) : string :=
  match v with
  | VNone => "NoneType"
  | VBool _ => "bool"
  | VInt _ => "int"
  | VFloat _ => "float"
  | VStr _ => "str"
  | VList _ => "list"
  | VDict _ => "dict"
  end.

(** The exceptions the broker meets.  [json.JSONDecodeError] and the two
    Unicode errors are subclasses of [ValueError] in Python; the handlers
    tell exceptions apart by class only to pick out [JSONDecodeError], so
    each class is a constructor of its own. *)
Inductive exn :=
| ValueError (msg : string)
| TypeError (msg : string)
| AttributeError (msg : string)
| JSONDecodeError (msg : string)
| RecursionError (msg : string)
| UnicodeDecodeError (msg : string)
| UnicodeEncodeError (msg : string).

(** [str(e)] *)
Definition exn_str (e : exn) : string :=
  match e with
  | ValueError m | TypeError m | AttributeError m | JSONDecodeError m
  | RecursionError m | UnicodeDecodeError m | UnicodeEncodeError m => m
  end.

(** Results of code that may raise. *)
Inductive res (A : Type) :=
| Ret (a : A)
| Raise (e : exn).
Arguments Ret {A} a.
Arguments Raise {A} e.

Global Instance res_ret : MRet res := λ A a, Ret a.
Global Instance res_bind : MBind res := λ A B k m,
  match m with
  | Ret a => k a
  | Raise e => Raise e
  end.

(** ** Data classes *)

Inductive EventType :=
| PROOF_SUBMITTED
| VERIFICATION_COMPLETE
| CHAIN_STEP_ADDED
| STREAM_CREATED
| AGENT_REGISTERED
| TASK_DELEGATED
| OPERAD_COMPLETED.

Global Instance EventType_eq_dec : EqDecision EventType.
Proof. solve_decision. Defined.

Definition all_event_types : list EventType :=
  [PROOF_SUBMITTED; VERIFICATION_COMPLETE; CHAIN_STEP_ADDED; STREAM_CREATED;
   AGENT_REGISTERED; TASK_DELEGATED; OPERAD_COMPLETED].

(** The [value] of each member of the enumeration. *)
Definition EventType_value (t : EventType) : string :=
  match t with
  | PROOF_SUBMITTED => "proof_submitted"
  | VERIFICATION_COMPLETE => "verification_complete"
  | CHAIN_STEP_ADDED => "chain_step_added"
  | STREAM_CREATED => "stream_created"
  | AGENT_REGISTERED => "agent_registered"
  | TASK_DELEGATED => "task_delegated"
  | OPERAD_COMPLETED => "operad_completed"
  end.

(** [EventType(et)] for a string [et]: lookup by value, [ValueError] when
    there is none.  The text of the error shows [repr(et)], which is [et]
    between single quotes for a string without quotes, backslashes or
    characters that [repr] escapes. *)
Definition EventType_call (et : string) : res EventType :=
  match List.find (fun t => String.eqb (EventType_value t) et) all_event_types with
  | Some t => Ret t
  | None => Raise (ValueError ("'" ++ et ++ "' is not a valid EventType"))
  end.

Record StreamEvent := mkStreamEvent {
  event_type : EventType;
  stream_id : string;
  timestamp : Q;
  data : gmap string value
}.

(** The fields carry the types of the data class annotations; an unset field
    is [None].  The annotations are not checked when a filter is built from
    a request, so the registry of a running broker can hold a filter whose
    field has another type (a string for the threshold, say), on which
    matching raises for events it would otherwise handle.  Such filters are
    not values of this record: what is stated about matching is stated for
    filters of the annotated types, and what is stated about whole states
    of the broker either does not depend on matching or says what happens
    when matching raises. *)
Record StreamFilter := mkStreamFilter {
  architectures : option (list string);
  agents : option (list string);
  event_types : option (list EventType);
  quality_threshold : option Q;
  chain_id : option string
}.

(** ** Filter matching engine *)

(** [d.get(k)] and [d.get(k, dflt)] *)
Definition dict_get (d : gmap string value) (k : string) : value :=
  match d !! k with
  | Some v => v
  | None => VNone
  end.
Definition dict_get_default (d : gmap string value) (k : string) (dflt : value) : value :=
  match d !! k with
  | Some v => v
  | None => dflt
  end.

(** [v in l] for a list of strings: only a string equals a string. *)
Definition value_in_strs (v : value) (l : list string) : bool :=
  match v with
  | VStr s => bool_decide (s ∈ l)
  | _ => false
  end.

(** [v != s] for a string [s]. *)
Definition value_ne_str (v : value) (s : string) : bool :=
  match v with
  | VStr s' => negb (String.eqb s' s)
  | _ => true
  end.

(** Truthiness of the filter fields: a list is true when it is not empty, a
    float when it is not zero, a string when it is not empty. *)
Definition list_set {A} (o : option (list A)) : option (list A) :=
  match o with
  | Some (x :: l) => Some (x :: l)
  | _ => None
  end.
Definition float_set (o : option Q) : option Q :=
  match o with
  | Some t => if Qeq_bool t 0 then None else Some t
  | None => None
  end.
Definition str_set (o : option string) : option string :=
  match o with
  | Some s => if String.eqb s "" then None else Some s
  | None => None
  end.

Definition Qltb (a b : Q) : bool := negb (Qle_bool b a).

(** [quality < threshold] with a float on the right: numbers compare by
    value (a boolean is 0 or 1), anything else raises [TypeError]. *)
Definition py_lt_float (quality : value) (threshold : Q) : res bool :=
  match quality with
  | VInt z => Ret (Qltb (inject_Z z) threshold)
  | VFloat q => Ret (Qltb q threshold)
  | VBool b => Ret (Qltb (inject_Z (Z.b2z b)) threshold)
  | v => Raise (TypeError ("'<' not supported between instances of '"
                           ++ py_typename v ++ "' and 'float'"))
  end.

(** [a or b] *)
Definition py_or (a b : value) : value := if truthy a then a else b.

(** The five checks of the loop body; each is [true] when the check runs
    [continue]. *)

(** [f.event_types and event.event_type not in f.event_types] *)
Definition skip_event_type (event : StreamEvent) (f : StreamFilter) : bool :=
  match list_set (event_types f) with
  | Some ets => negb (bool_decide (event_type event ∈ ets))
  | None => false
  end.

(** [f.architectures and event.data.get("architecture") not in f.architectures] *)
Definition skip_architecture (event : StreamEvent) (f : StreamFilter) : bool :=
  match list_set (architectures f) with
  | Some archs => negb (value_in_strs (dict_get (data event) "architecture") archs)
  | None => false
  end.

(** [if f.agents: agent = ... or ...; if agent not in f.agents: continue] *)
Definition skip_agent (event : StreamEvent) (f : StreamFilter) : bool :=
  match list_set (agents f) with
  | Some ags =>
      let agent := py_or (dict_get (data event) "agent")
                         (dict_get (data event) "submitter") in
      negb (value_in_strs agent ags)
  | None => false
  end.

(** [if f.quality_threshold: quality = ...get("quality_score", 0);
    if quality < f.quality_threshold: continue] *)
Definition skip_quality (event : StreamEvent) (f : StreamFilter) : res bool :=
  match float_set (quality_threshold f) with
  | Some t =>
      let quality := dict_get_default (data event) "quality_score" (VInt 0) in
      py_lt_float quality t
  | None => Ret false
  end.

(** [f.chain_id and event.data.get("chain_id") != f.chain_id] *)
Definition skip_chain_id (event : StreamEvent) (f : StreamFilter) : bool :=
  match str_set (chain_id f) with
  | Some cid => value_ne_str (dict_get (data event) "chain_id") cid
  | None => false
  end.

(** The body of the [for f in filters] loop: [Ret true] when control reaches
    [return True], [Ret false] when one of the checks runs [continue]. *)
Definition filter_body (event : StreamEvent) (f : StreamFilter) : res bool :=
  if skip_event_type event f then Ret false else
  if skip_architecture event f then Ret false else
  if skip_agent event f then Ret false else
  below ← skip_quality event f;
  if below : bool then Ret false else
  if skip_chain_id event f then Ret false else
  Ret true.

Fixpoint filters_loop (event : StreamEvent) (filters : list StreamFilter) : res bool :=
  match filters with
  | [] => Ret false
  | f :: rest =>
      hit ← filter_body event f;
      if hit : bool then Ret true else filters_loop event rest
  end.

Definition _event_matches_filters (event : StreamEvent) (filters : list StreamFilter)
  : res bool :=
  match filters with
  | [] => Ret true
  | _ => filters_loop event filters
  end.

(** ** Frames sent to clients *)

(** The dictionaries handed to [_send_to_client], one constructor per
    ["type"]. *)
Inductive message :=
| msg_connection_established (client_id : string) (n_active_streams : nat)
| msg_subscription_confirmed (filter : StreamFilter) (subscription_id : nat)
| msg_subscription_error (text : string)
| msg_unsubscription_confirmed (subscription_id : value)
| msg_all_subscriptions_cleared
| msg_stream_created (sid : string) (stream_spec : value)
| msg_stream_creation_error (text : string)
| msg_proof_submitted (sid : string)
| msg_proof_submission_error (text : string)
| msg_pong (time : Q)
| msg_error (text : string)
| msg_stream_event (event : StreamEvent) (time : Q).

(** The ["type"] field of a frame. *)
Definition msg_type (m : message) : string :=
  match m with
  | msg_connection_established _ _ => "connection_established"
  | msg_subscription_confirmed _ _ => "subscription_confirmed"
  | msg_subscription_error _ => "subscription_error"
  | msg_unsubscription_confirmed _ => "unsubscription_confirmed"
  | msg_all_subscriptions_cleared => "all_subscriptions_cleared"
  | msg_stream_created _ _ => "stream_created"
  | msg_stream_creation_error _ => "stream_creation_error"
  | msg_proof_submitted _ => "proof_submitted"
  | msg_proof_submission_error _ => "proof_submission_error"
  | msg_pong _ => "pong"
  | msg_error _ => "error"
  | msg_stream_event _ _ => "stream_event"
  end.

(** Whether [json.dumps] accepts the dictionary.  [asdict] keeps the members
    of [EventType] as they are, and [EventType] is a plain [Enum]:
    [json.dumps] raises [TypeError] on a dictionary that holds one.  That
    is every [stream_event] (through [event_type]) and a
    [subscription_confirmed] whose filter lists at least one event type. *)
Definition json_dumps_ok (m : message) : bool :=
  match m with
  | msg_stream_event _ _ => false
  | msg_subscription_confirmed f _ =>
      match event_types f with
      | Some (_ :: _) => false
      | _ => true
      end
  | _ => true
  end.

(** ** Broker state *)

(** A transport session: [send] either goes through or raises. *)
Inductive websocket := Healthy | Broken.

(** Whether [websocket.send] returns (rather than raises). *)
Definition send_ok (ws : websocket) : bool :=
  match ws with
  | Healthy => true
  | Broken => false
  end.

Record Stream := mkStream {
  id : string;
  creator : string;
  spec : value;
  created_at : Q;
  event_count : nat;
  subscribers : list string
}.

Record Metrics := mkMetrics {
  total_events : nat;
  events_per_second : Q;
  m_connected_clients : nat;
  m_active_streams : nat;
  average_latency : Q
}.

(** [client_subscriptions] is iterated by [_emit_event], so it is kept as
    the insertion-ordered dictionary it is; [wire] records, oldest first,
    the frames [websocket.send] accepted. *)
Record Server := mkServer {
  connected_clients : gmap string websocket;
  client_subscriptions : list (string * list StreamFilter);
  active_streams : gmap string Stream;
  metrics : Metrics;
  _last_metrics_update : Q;
  _events_since_last_update : nat;
  wire : list (string * message)
}.

Definition new_server (now : Q) : Server :=
  mkServer ∅ [] ∅ (mkMetrics 0 0 0 0 0) now 0 [].

Definition set_connected_clients (s : Server) (cc : gmap string websocket) : Server :=
  mkServer cc (client_subscriptions s) (active_streams s) (metrics s)
           (_last_metrics_update s) (_events_since_last_update s) (wire s).
Definition set_client_subscriptions (s : Server) (cs : list (string * list StreamFilter))
  : Server :=
  mkServer (connected_clients s) cs (active_streams s) (metrics s)
           (_last_metrics_update s) (_events_since_last_update s) (wire s).
Definition set_active_streams (s : Server) (a : gmap string Stream) : Server :=
  mkServer (connected_clients s) (client_subscriptions s) a (metrics s)
           (_last_metrics_update s) (_events_since_last_update s) (wire s).
Definition set_metrics (s : Server) (m : Metrics) : Server :=
  mkServer (connected_clients s) (client_subscriptions s) (active_streams s) m
           (_last_metrics_update s) (_events_since_last_update s) (wire s).
Definition set_wire (s : Server) (w : list (string * message)) : Server :=
  mkServer (connected_clients s) (client_subscriptions s) (active_streams s) (metrics s)
           (_last_metrics_update s) (_events_since_last_update s) w.

(** Operations of the insertion-ordered dictionary. *)
Section ordered_dict.
Context {V : Type}.

Fixpoint od_lookup (k : string) (d : list (string * V)) : option V :=
  match d with
  | [] => None
  | (k', v) :: rest => if String.eqb k' k then Some v else od_lookup k rest
  end.

(** [d[k] = f(d[k])] on a [defaultdict]: a missing key starts from [dflt]
    and goes to the end. *)
Fixpoint od_alter (f : V → V) (dflt : V) (k : string) (d : list (string * V))
  : list (string * V) :=
  match d with
  | [] => [(k, f dflt)]
  | (k', v) :: rest =>
      if String.eqb k' k then (k', f v) :: rest
      else (k', v) :: od_alter f dflt k rest
  end.

(** [del d[k]] *)
Fixpoint od_delete (k : string) (d : list (string * V)) : list (string * V) :=
  match d with
  | [] => []
  | (k', v) :: rest =>
      if String.eqb k' k then rest else (k', v) :: od_delete k rest
  end.
End ordered_dict.

(** ** The handlers' monad: state and exceptions

    A raised exception keeps the state reached so far, as in Python. *)
Definition M (A : Type) : Type := Server → res A * Server.

Global Instance M_ret : MRet M := λ A a s, (Ret a, s).
Global Instance M_bind : MBind M := λ A B k m s,
  match m s with
  | (Ret a, s') => k a s'
  | (Raise e, s') => (Raise e, s')
  end.
Definition raise {A} (e : exn) : M A := fun s => (Raise e, s).
Definition lift {A} (r : res A) : M A := fun s => (r, s).
Definition get_state : M Server := fun s => (Ret s, s).
Definition modify (f : Server → Server) : M unit := fun s => (Ret tt, f s).
Definition mtry {A} (body : M A) (handler : exn → M A) : M A :=
  fun s => match body s with
           | (Ret a, s') => (Ret a, s')
           | (Raise e, s') => handler e s'
           end.

(** State a handler leaves, whether it returned or raised. *)
Definition exec {A} (m : M A) (s : Server) : Server := (m s).2.
Definition outcome {A} (m : M A) (s : Server) : res A := (m s).1.

(** ** Connection manager: sending *)

(** [_send_to_client]: nothing for an unknown client; otherwise serialize
    and send, and on any exception drop the client from the connection
    table (and from nothing else). *)
Definition _send_to_client (client_id : string) (m : message) : M unit :=
  fun s =>
    match connected_clients s !! client_id with
    | None => (Ret tt, s)
    | Some ws =>
        if json_dumps_ok m && send_ok ws
        then (Ret tt, set_wire s (wire s ++ [(client_id, m)]))
        else (Ret tt, set_connected_clients s (delete client_id (connected_clients s)))
    end.

(** ** Event broadcaster *)

Definition bump_event_counters (s : Server) : Server :=
  let m := metrics s in
  mkServer (connected_clients s) (client_subscriptions s) (active_streams s)
           (mkMetrics (S (total_events m)) (events_per_second m)
                      (m_connected_clients m) (m_active_streams m) (average_latency m))
           (_last_metrics_update s) (S (_events_since_last_update s)) (wire s).

(** The [for client_id, filters in self.client_subscriptions.items()] loop. *)
Fixpoint emit_loop (event : StreamEvent) (event_data : message)
    (items : list (string * list StreamFilter)) : M unit :=
  match items with
  | [] => mret tt
  | (client_id, filters) :: rest =>
      hit ← lift (_event_matches_filters event filters);
      (if hit : bool then _send_to_client client_id event_data else mret tt);;
      emit_loop event event_data rest
  end.

(** [_emit_event]; [now] is the reading of the clock put into the frame.
    The callbacks of [event_handlers] run after the loop with their
    exceptions caught and logged; they are not part of the broker state. *)
Definition _emit_event (event : StreamEvent) (now : Q) : M unit :=
  modify bump_event_counters;;
  s ← get_state;
  emit_loop event (msg_stream_event event now) (client_subscriptions s).

(** ** Connection manager: lifecycle *)

(** [self.metrics["connected_clients"] = len(self.connected_clients)] *)
Definition refresh_connected_metric (s : Server) : Server :=
  let m := metrics s in
  set_metrics s (mkMetrics (total_events m) (events_per_second m)
                           (size (connected_clients s)) (m_active_streams m)
                           (average_latency m)).

(** [_handle_client] up to the message loop: the connection enters the
    connection table (and no other table) and is greeted. *)
Definition _handle_client_enter (client_id : string) (ws : websocket) : M unit :=
  modify (λ s, set_connected_clients s (<[client_id := ws]> (connected_clients s)));;
  modify refresh_connected_metric;;
  s ← get_state;
  _send_to_client client_id
    (msg_connection_established client_id (size (active_streams s))).

(** The [finally] block of [_handle_client]. *)
Definition _handle_client_finally (client_id : string) : M unit :=
  modify (λ s, set_connected_clients s (delete client_id (connected_clients s)));;
  modify (λ s, set_client_subscriptions s (od_delete client_id (client_subscriptions s)));;
  modify refresh_connected_metric.

(** ** Subscription registry *)

(** The ["filter"] object of a [subscribe] request, after the [.get]s of
    [_handle_subscription]; [fd_event_types] is
    [filter_data.get("event_types", [])].  The record is the well-typed
    request: a filter that is an object, with a list of strings for the
    event types. *)
Record FilterData := mkFilterData {
  fd_architectures : option (list string);
  fd_agents : option (list string);
  fd_event_types : list string;
  fd_quality_threshold : option Q;
  fd_chain_id : option string
}.

(** [StreamFilter(...)] with the list comprehension over the event types. *)
Definition build_filter (filter_data : FilterData) : res StreamFilter :=
  ets ← mapM EventType_call (fd_event_types filter_data);
  mret (mkStreamFilter (fd_architectures filter_data) (fd_agents filter_data)
                       (Some ets) (fd_quality_threshold filter_data)
                       (fd_chain_id filter_data)).

(** [self.client_subscriptions[client_id]] read without creating the entry. *)
Definition subscriptions_of (s : Server) (client_id : string) : list StreamFilter :=
  match od_lookup client_id (client_subscriptions s) with
  | Some filters => filters
  | None => []
  end.

Definition _handle_subscription (client_id : string) (filter_data : FilterData) : M unit :=
  mtry
    (stream_filter ← lift (build_filter filter_data);
     modify (λ s, set_client_subscriptions s
                    (od_alter (λ l, l ++ [stream_filter]) [] client_id
                              (client_subscriptions s)));;
     s ← get_state;
     _send_to_client client_id
       (msg_subscription_confirmed stream_filter
          (length (subscriptions_of s client_id) - 1)))
    (λ e, _send_to_client client_id (msg_subscription_error (exn_str e))).

(** [del self.client_subscriptions[client_id][subscription_id]] and the
    confirmation that follows it. *)
Definition unsubscribe_at (client_id : string) (subscription_id : value) (i : nat)
  : M unit :=
  modify (λ s, set_client_subscriptions s
                 (od_alter (delete i) [] client_id (client_subscriptions s)));;
  _send_to_client client_id (msg_unsubscription_confirmed subscription_id).

(** [self.client_subscriptions[client_id].clear()] and its report. *)
Definition unsubscribe_all (client_id : string) : M unit :=
  modify (λ s, set_client_subscriptions s
                 (od_alter (λ _, []) [] client_id (client_subscriptions s)));;
  _send_to_client client_id msg_all_subscriptions_cleared.

(** [subscription_id is not None and 0 <= subscription_id < len(...)]: the
    chained comparison raises [TypeError] on what is not a number. *)
Definition index_in_range (subscription_id : value) (n : nat) : res bool :=
  match subscription_id with
  | VNone => Ret false
  | VInt z => Ret ((0 <=? z) && (z <? Z.of_nat n))%Z
  | VBool b => Ret ((0 <=? Z.b2z b) && (Z.b2z b <? Z.of_nat n))%Z
  | VFloat q => Ret (Qle_bool 0 q && Qltb q (inject_Z (Z.of_nat n)))
  | v => Raise (TypeError ("'<=' not supported between instances of 'int' and '"
                           ++ py_typename v ++ "'"))
  end.

(** The position [del filters[subscription_id]] deletes: a list index is an
    integer (or a boolean), anything else raises [TypeError]. *)
Definition list_index (subscription_id : value) : res nat :=
  match subscription_id with
  | VInt z => Ret (Z.to_nat z)
  | VBool b => Ret (Z.to_nat (Z.b2z b))
  | v => Raise (TypeError ("list indices must be integers or slices, not "
                           ++ py_typename v))
  end.

(** [_handle_unsubscription].  [subscription_id] is whatever the request
    carries ([None] when the field is absent).  The handler has no [try] of
    its own. *)
Definition _handle_unsubscription (client_id : string) (subscription_id : value) : M unit :=
  s ← get_state;
  match od_lookup client_id (client_subscriptions s) with
  | None => mret tt
  | Some filters =>
      in_range ← lift (index_in_range subscription_id (length filters));
      if in_range : bool
      then i ← lift (list_index subscription_id);
           unsubscribe_at client_id subscription_id i
      else
        (* Clear all subscriptions *)
        unsubscribe_all client_id
  end.

(** ** Metrics collector *)

(** One pass of the body of [_update_metrics_loop], with the reading of the
    clock taken after the sleep. *)
Definition _update_metrics_loop_body (current_time : Q) (s : Server) : Server :=
  let time_delta := (current_time - _last_metrics_update s)%Q in
  let m := metrics s in
  let m' :=
    if Qltb 0 time_delta
    then mkMetrics (total_events m)
                   (inject_Z (Z.of_nat (_events_since_last_update s)) / time_delta)%Q
                   (m_connected_clients m) (m_active_streams m) (average_latency m)
    else m in
  mkServer (connected_clients s) (client_subscriptions s) (active_streams s) m'
           current_time 0 (wire s).

(** ** Stream registry and dispatch *)

Inductive request :=
| Subscribe (filter_data : FilterData)
| Unsubscribe (subscription_id : value)
| CreateStream (stream_spec : value)
| SubmitProof (sid proof_data public_inputs : value) (architecture : option value)
| Ping
| Unknown (type : value).

(** What [json.loads] makes of an inbound frame: it raises, or returns
    something that is not an object, or returns a request object.  The
    exception is [JSONDecodeError] for text that is not JSON; it is a plain
    [ValueError] for an integer of more digits than the interpreter
    converts, [RecursionError] for nesting beyond the recursion limit and
    [UnicodeDecodeError] for a binary frame that is not UTF-8. *)
Inductive frame :=
| Undecodable (e : exn)
| NonObject (v : value)
| Object (r : request).

(** [self.metrics["active_streams"] = len(self.active_streams)] *)
Definition refresh_streams_metric (s : Server) : Server :=
  let m := metrics s in
  set_metrics s (mkMetrics (total_events m) (events_per_second m)
                           (m_connected_clients m) (size (active_streams s))
                           (average_latency m)).

(** [self.active_streams[stream_id]["event_count"] += 1] *)
Definition count_event (st : Stream) : Stream :=
  mkStream (id st) (creator st) (spec st) (created_at st) (S (event_count st))
           (subscribers st).

Definition stream_created_event (client_id stream_id : string) (stream_spec : value)
    (now : Q) : StreamEvent :=
  mkStreamEvent STREAM_CREATED stream_id now
    (<["creator" := VStr client_id]> (<["spec" := stream_spec]> ∅)).

Section runtime.
(** [hashlib.sha256(s.encode()).hexdigest()] for a text that can be encoded,
    the text Python's [str] and f-strings give a value, the text they give
    a reading of the clock, and the failure of [s.encode()]: a text with a
    lone surrogate (a string that JSON writes as [\ud800], say) cannot be
    encoded, and [encode_error s] is then the text of the
    [UnicodeEncodeError]. *)
Variable sha256_hexdigest : string → string.
Variable py_str : value → string.
Variable float_str : Q → string.
Variable encode_error : string → option string.

(** [s.encode()], for its exception only. *)
Definition encode (text : string) : res unit :=
  match encode_error text with
  | Some msg => Raise (UnicodeEncodeError msg)
  | None => Ret tt
  end.

(** The stream id of [_handle_create_stream]: the digest of
    [f"{client_id}_{stream_spec}_{time.time()}"]. *)
Definition stream_id_text (client_id : string) (stream_spec : value) (now : Q) : string :=
  client_id ++ "_" ++ py_str stream_spec ++ "_" ++ float_str now.
Definition make_stream_id (client_id : string) (stream_spec : value) (now : Q) : string :=
  sha256_hexdigest (stream_id_text client_id stream_spec now).

(** [_handle_create_stream]; the four readings of the clock are those of
    the id, of [created_at], of the event and of the broadcast frame.  The
    id text is encoded before anything is stored. *)
Definition _handle_create_stream (client_id : string) (stream_spec : value)
    (t_id t_created t_event t_emit : Q) : M unit :=
  mtry
    (lift (encode (stream_id_text client_id stream_spec t_id));;
     let stream_id := make_stream_id client_id stream_spec t_id in
     modify (λ s, set_active_streams s
                    (<[stream_id := mkStream stream_id client_id stream_spec
                                             t_created 0 []]> (active_streams s)));;
     modify refresh_streams_metric;;
     _send_to_client client_id (msg_stream_created stream_id stream_spec);;
     (* Broadcast stream creation *)
     _emit_event (stream_created_event client_id stream_id stream_spec t_event) t_emit)
    (λ e, _send_to_client client_id (msg_stream_creation_error (exn_str e))).

(** [stream_id not in self.active_streams], then the key: a string is
    looked up, a list or an object cannot be hashed, and no other value is
    a key of the table. *)
Definition registered_stream (sid : value) : M string :=
  s ← get_state;
  match sid with
  | VStr k =>
      match active_streams s !! k with
      | Some _ => mret k
      | None => raise (ValueError ("Stream " ++ py_str sid ++ " not found"))
      end
  | VList _ | VDict _ =>
      raise (TypeError ("unhashable type: '" ++ py_typename sid ++ "'"))
  | _ => raise (ValueError ("Stream " ++ py_str sid ++ " not found"))
  end.

(** The content fingerprint: the first 16 hex digits of the digest. *)
Definition fingerprint (v : value) : string :=
  String.substring 0 16 (sha256_hexdigest (py_str v)).

Definition proof_submitted_event (client_id stream_id : string)
    (proof_data public_inputs : value) (architecture : option value) (now : Q)
  : StreamEvent :=
  mkStreamEvent PROOF_SUBMITTED stream_id now
    (<["submitter" := VStr client_id]>
       (<["proof_hash" := VStr (fingerprint proof_data)]>
          (<["input_hash" := VStr (fingerprint public_inputs)]>
             (<["architecture" := match architecture with
                                   | Some a => a
                                   | None => VStr "unknown"
                                   end]> ∅)))).

(** The first failure of encoding [str(proof_data)] and
    [str(public_inputs)], if there is one. *)
Definition payload_encode_error (proof_data public_inputs : value) : option string :=
  match encode_error (py_str proof_data) with
  | Some msg => Some msg
  | None => encode_error (py_str public_inputs)
  end.

(** [_handle_proof_submission]; the two fingerprints are arguments of the
    event, so [str(proof_data)] and [str(public_inputs)] are encoded, in
    this order, before [_emit_event] is called. *)
Definition _handle_proof_submission (client_id : string)
    (sid proof_data public_inputs : value) (architecture : option value)
    (t_event t_emit : Q) : M unit :=
  mtry
    (stream_id ← registered_stream sid;
     lift (encode (py_str proof_data));;
     lift (encode (py_str public_inputs));;
     (* Emit proof submission event *)
     _emit_event
       (proof_submitted_event client_id stream_id proof_data public_inputs
                              architecture t_event)
       t_emit;;
     (* Update stream metrics *)
     modify (λ s, set_active_streams s (alter count_event stream_id (active_streams s)));;
     _send_to_client client_id (msg_proof_submitted stream_id))
    (λ e, _send_to_client client_id (msg_proof_submission_error (exn_str e))).

(** [_handle_client_message]; [clock k] is the [k]-th reading of the clock
    while the frame is handled. *)
Definition _handle_client_message (client_id : string) (fr : frame) (clock : nat → Q)
  : M unit :=
  mtry
    (match fr with
     | Undecodable e => raise e
     | NonObject v =>
         raise (AttributeError ("'" ++ py_typename v ++ "' object has no attribute 'get'"))
     | Object (Subscribe filter_data) => _handle_subscription client_id filter_data
     | Object (Unsubscribe subscription_id) =>
         _handle_unsubscription client_id subscription_id
     | Object (CreateStream stream_spec) =>
         _handle_create_stream client_id stream_spec
                               (clock 0) (clock 1) (clock 2) (clock 3)
     | Object (SubmitProof sid proof_data public_inputs architecture) =>
         _handle_proof_submission client_id sid proof_data public_inputs architecture
                                  (clock 0) (clock 1)
     | Object Ping => _send_to_client client_id (msg_pong (clock 0))
     | Object (Unknown type) =>
         _send_to_client client_id
           (msg_error ("Unknown message type: " ++ py_str type))
     end)
    (λ e, match e with
          | JSONDecodeError _ => _send_to_client client_id (msg_error "Invalid JSON format")
          | _ => _send_to_client client_id (msg_error (exn_str e))
          end).
End runtime.

(** ** The matching rule, constraint by constraint

    The conditions under which [_event_matches_filters] applies each
    constraint, as propositions: the engine tests a field for truth, so a
    constraint is applied when its field is set and not empty, which for
    the threshold means set and other than zero ([declares_threshold] is
    the test [if f.quality_threshold:]). *)

Definition declares_list {A} (field : option (list A)) (l : list A) : Prop :=
  field = Some l ∧ l ≠ [].
Definition declares_threshold (f : StreamFilter) (t : Q) : Prop :=
  quality_threshold f = Some t ∧ ¬ (t == 0)%Q.
Definition declares_chain_id (f : StreamFilter) (c : string) : Prop :=
  chain_id f = Some c ∧ c ≠ "".

(** The agent the engine compares:
    [event.data.get("agent") or event.data.get("submitter")]. *)
Definition agent_identity (e : StreamEvent) : value :=
  match data e !! "agent" with
  | Some a => if truthy a then a else dict_get (data e) "submitter"
  | None => dict_get (data e) "submitter"
  end.

(** The number a value stands for, when it is one. *)
Definition number_of (v : value) : option Q :=
  match v with
  | VInt z => Some (inject_Z z)
  | VFloat q => Some q
  | VBool b => Some (inject_Z (Z.b2z b))
  | _ => None
  end.

(** [data.quality_score], 0 when the field is absent. *)
Definition quality_score (e : StreamEvent) : option Q :=
  match data e !! "quality_score" with
  | Some v => number_of v
  | None => Some 0%Q
  end.

(** The score of the event is a number (or absent). *)
Definition quality_is_number (e : StreamEvent) : Prop :=
  is_Some (quality_score e).

Record satisfies (e : StreamEvent) (f : StreamFilter) : Prop := mkSatisfies {
  sat_event_kind : ∀ kinds, declares_list (event_types f) kinds → event_type e ∈ kinds;
  sat_architecture : ∀ archs, declares_list (architectures f) archs →
    ∃ a, data e !! "architecture" = Some (VStr a) ∧ a ∈ archs;
  sat_agent : ∀ ags, declares_list (agents f) ags →
    ∃ a, agent_identity e = VStr a ∧ a ∈ ags;
  sat_quality : ∀ t, declares_threshold f t →
    ∃ q, quality_score e = Some q ∧ (t <= q)%Q;
  sat_chain_id : ∀ c, declares_chain_id f c → data e !! "chain_id" = Some (VStr c)
}.

(** OR across the filters, and the empty sequence matches everything. *)
Definition matches_spec (e : StreamEvent) (fs : list StreamFilter) : Prop :=
  fs = [] ∨ ∃ f, f ∈ fs ∧ satisfies e f.

(** ** The matching rule in the words of the specification

    These definitions follow the specification, not the code; the theorem
    on [_event_matches_filters] compares the two.  A list constraint and
    the chain id count when they are set to something non-empty
    ([declares_list], [declares_chain_id]); the quality threshold counts
    whenever it is set. *)

(** An agent field that names no agent: [None], [False], zero, or an empty
    string, list or object. *)
Definition blank (v : value) : bool :=
  match v with
  | VNone => true
  | VBool b => negb b
  | VInt z => (z =? 0)%Z
  | VFloat q => Qeq_bool q 0
  | VStr s => String.eqb s ""
  | VList [] => true
  | VDict [] => true
  | _ => false
  end.

(** The agent identity: [data.agent], falling back to [data.submitter]. *)
Definition agent_of (e : StreamEvent) : option value :=
  match data e !! "agent" with
  | Some a => if blank a then data e !! "submitter" else Some a
  | None => data e !! "submitter"
  end.



(** The filter a client gets by subscribing with [{}]. *)
Definition empty_filter : StreamFilter := mkStreamFilter None None (Some []) None None.

(** ** Sample data of the scenarios *)

Definition mamba_event : StreamEvent :=
  mkStreamEvent VERIFICATION_COMPLETE "global" 0
    (<["agent" := VStr "agent-1"]> (<["architecture" := VStr "Mamba"]> ∅)).

Definition rwkv_filter : StreamFilter :=
  mkStreamFilter (Some ["RWKV"]) None (Some []) None None.

(** A filter that declares a quality threshold and nothing else, and an
    event with a negative score. *)
Definition threshold_filter (t : Q) : StreamFilter :=
  mkStreamFilter None None None (Some t) None.

Definition negative_quality_event : StreamEvent :=
  mkStreamEvent VERIFICATION_COMPLETE "global" 0
    (<["quality_score" := VInt (-1)]> ∅).

(** ** What a client sees *)

(** The frames that went out to a client, oldest first. *)
Definition frames_to (client_id : string) (s : Server) : list message :=
  omap (λ p : string * message, if String.eqb p.1 client_id then Some p.2 else None)
       (wire s).

(** The broker's view of one client: its entry in the connection table and
    the frames it was sent. *)
Definition view (client_id : string) (s : Server) : option websocket * list message :=
  (connected_clients s !! client_id, frames_to client_id s).


(** The clients [_emit_event] calls [_send_to_client] for: the keys of the
    subscription registry whose filter list matches, in registry order. *)
Definition matches_true (e : StreamEvent) (filters : list StreamFilter) : bool :=
  match _event_matches_filters e filters with
  | Ret true => true
  | _ => false
  end.
Definition send_all (m : message) (targets : list string) (s : Server) : Server :=
  foldl (λ s' client_id, exec (_send_to_client client_id m) s') s targets.

(** ** Sample runs *)

(** The [subscribe] request with the filter [{}]. *)
Definition empty_filter_data : FilterData := mkFilterData None None [] None None.

(** Two clients connect; the second subscribes with [{}], the first sends
    nothing. *)
Definition two_clients : Server :=
  exec (_handle_subscription "c2" empty_filter_data)
    (exec (_handle_client_enter "c2" Healthy)
       (exec (_handle_client_enter "c1" Healthy) (new_server 0))).


(** A client connects and asks to unsubscribe before it ever subscribed. *)
Definition lone_client : Server := exec (_handle_client_enter "c1" Healthy) (new_server 0).


(** A broker started at time [t0] that has broadcast ten events. *)
Definition ten_events (t0 : Q) : Server :=
  Nat.iter 10 (exec (_emit_event mamba_event t0)) (new_server t0).

(** The network under a connection fails: from now on [send] raises.  This
    is a step of the environment, not of the broker. *)
Definition transport_breaks (client_id : string) (s : Server) : Server :=
  set_connected_clients s (alter (λ _, Broken) client_id (connected_clients s)).

(** Every record of the stream registry is stored under its own id. *)
Definition ids_consistent (s : Server) : Prop :=
  ∀ k st, active_streams s !! k = Some st → id st = k.

(** A computation that leaves the stream registry as it finds it. *)
Definition keeps_streams {A} (m : M A) : Prop :=
  ∀ s, active_streams (m s).2 = active_streams s.

(** The key under which a [submit_proof] request finds its stream, if any. *)
Definition stream_key (s : Server) (sid : value) : option string :=
  match sid with
  | VStr k => match active_streams s !! k with Some _ => Some k | None => None end
  | _ => None
  end.

(** A text without an underscore, as a client id [host:port:time] and the
    rendering of a float are. *)
Fixpoint no_underscore (s : string) : bool :=
  match s with
  | EmptyString => true
  | String a rest => negb (Ascii.eqb a "_"%char) && no_underscore rest
  end.

(** A runtime to run the handlers with: a digest that is the identity
    (so it has no collisions), and simple renderings of values and clock
    readings. *)
Definition sample_digest (text : string) : string := text.
Definition sample_str (v : value) : string :=
  match v with
  | VStr t => t
  | VInt z => pretty z
  | v => "<" ++ py_typename v ++ ">"
  end.
Definition sample_float_str (q : Q) : string :=
  pretty (Qnum q) ++ "/" ++ pretty (Zpos (Qden q)).
(** Every text of the sample runs can be encoded but the one that stands
    for a string with a lone surrogate. *)
Definition sample_encode_error (text : string) : option string :=
  if String.eqb text "<surrogate>" then Some "surrogates not allowed" else None.

(** The client of [lone_client] creates a stream with the spec [{}] twice,
    and the clock reads 7 both times the id is made. *)
Definition created_twice : Server :=
  exec (_handle_create_stream sample_digest sample_str sample_float_str
        sample_encode_error
          "c1" (VDict []) 7 8 8 8)
    (exec (_handle_create_stream sample_digest sample_str sample_float_str
        sample_encode_error
             "c1" (VDict []) 7 7 7 7) lone_client).

(** The state after one more frame has gone out to a client. *)
Definition with_reply (s : Server) (client_id : string) (m : message) : Server :=
  set_wire s (wire s ++ [(client_id, m)]).

(** A clock that stands still. *)
Definition still_clock (t : Q) : nat → Q := λ _, t.

(** The client of [lone_client] creates a stream, subscribes with [{}] and
    submits a proof to its stream. *)
Definition stream_of_c1 : string :=
  make_stream_id sample_digest sample_str sample_float_str "c1" (VDict []) 7.

Definition subscribed_creator : Server :=
  exec (_handle_subscription "c1" empty_filter_data)
    (exec (_handle_create_stream sample_digest sample_str sample_float_str
        sample_encode_error
             "c1" (VDict []) 7 7 7 7) lone_client).

Definition after_submit : Server :=
  exec (_handle_proof_submission sample_digest sample_str sample_encode_error
        "c1" (VStr stream_of_c1)
          (VStr "proof") (VList [VInt 1; VInt 2]) (Some (VStr "RWKV")) 9 9)
    subscribed_creator.

(** ** Notification helpers *)

(** The events of [broadcast_verification_complete],
    [broadcast_chain_step_added] and [broadcast_agent_registered]. *)
Definition verification_complete_event (agent receipt_hash architecture : string)
    (gas_used : Z) (now : Q) : StreamEvent :=
  mkStreamEvent VERIFICATION_COMPLETE "global" now
    (<["agent" := VStr agent]>
       (<["receipt_hash" := VStr receipt_hash]>
          (<["architecture" := VStr architecture]>
             (<["gas_used" := VInt gas_used]>
                (<["verified" := VBool true]> ∅))))).

Definition chain_step_added_event (chain step_agent architecture : string)
    (step_index : Z) (now : Q) : StreamEvent :=
  mkStreamEvent CHAIN_STEP_ADDED "global" now
    (<["chain_id" := VStr chain]>
       (<["step_index" := VInt step_index]>
          (<["agent" := VStr step_agent]>
             (<["architecture" := VStr architecture]> ∅)))).

Definition agent_registered_event (agent : string) (archs : list string) (now : Q)
  : StreamEvent :=
  mkStreamEvent AGENT_REGISTERED "global" now
    (<["agent" := VStr agent]>
       (<["architectures" := VList (map VStr archs)]>
          (<["reputation_score" := VInt 100]> ∅))).

Definition broadcast_verification_complete (agent receipt_hash architecture : string)
    (gas_used : Z) (t_event t_emit : Q) : M unit :=
  _emit_event (verification_complete_event agent receipt_hash architecture gas_used t_event)
              t_emit.

Definition broadcast_chain_step_added (chain : string) (step_index : Z)
    (step_agent architecture : string) (t_event t_emit : Q) : M unit :=
  _emit_event (chain_step_added_event chain step_agent architecture step_index t_event)
              t_emit.

Definition broadcast_agent_registered (agent : string) (archs : list string)
    (t_event t_emit : Q) : M unit :=
  _emit_event (agent_registered_event agent archs t_event) t_emit.

(** ** A whole connection *)

(** [try: body finally: fin] *)
Definition mfinally {A} (body : M A) (fin : M unit) : M A :=
  λ s, match body s with
       | (r, s') =>
           match fin s' with
           | (Ret _, s'') => (r, s'')
           | (Raise e, s'') => (Raise e, s'')
           end
       end.

Section connection.
Variable sha256_hexdigest : string → string.
Variable py_str : value → string.
Variable float_str : Q → string.
Variable encode_error : string → option string.

(** The [async for message in websocket] loop over the frames the client
    sends before its transport closes; each frame comes with the readings
    of the clock taken while it is handled. *)
Fixpoint message_loop (client_id : string) (messages : list (frame * (nat → Q)))
  : M unit :=
  match messages with
  | [] => mret tt
  | (fr, clock) :: rest =>
      _handle_client_message sha256_hexdigest py_str float_str encode_error client_id fr clock;;
      message_loop client_id rest
  end.

(** [_handle_client]: both [except] branches only log. *)
Definition _handle_client (client_id : string) (ws : websocket)
    (messages : list (frame * (nat → Q))) : M unit :=
  mfinally
    (mtry (_handle_client_enter client_id ws;; message_loop client_id messages)
          (λ _, mret tt))
    (_handle_client_finally client_id).
End connection.

(** ** Properties kept along a run *)

(** A handler takes every state to one related to it by [R]. *)
Definition preserves {A} (R : Server → Server → Prop) (m : M A) : Prop :=
  ∀ s, R s (m s).2.

Section broadcast_count.
Variable py_str : value → string.
Variable float_str : Q → string.
Variable encode_error : string → option string.

(** The number of times a frame of client [client_id] enters [_emit_event]:
    once for a [create_stream] whose id text can be encoded, once for a
    [submit_proof] to a registered stream whose payload can be encoded, and
    not at all otherwise. *)
Definition broadcasts (client_id : string) (clock : nat → Q) (s : Server) (fr : frame)
  : nat :=
  match fr with
  | Object (CreateStream spec) =>
      match encode_error (stream_id_text py_str float_str client_id spec (clock 0)) with
      | None => 1
      | Some _ => 0
      end
  | Object (SubmitProof sid pd pi _) =>
      match stream_key s sid, payload_encode_error py_str encode_error pd pi with
      | Some _, None => 1
      | _, _ => 0
      end
  | _ => 0
  end.
End broadcast_count.

(** The keys of the subscription registry are pairwise distinct, as the keys
    of a dictionary are. *)
Definition registry_keys_distinct (s : Server) : Prop :=
  NoDup (map fst (client_subscriptions s)).

(** A filter that declares agents and nothing else. *)
Definition agents_filter (ags : list string) : StreamFilter :=
  mkStreamFilter None (Some ags) None None None.

(** An event that names an agent and a submitter. *)
Definition agent_event (agent submitter : value) : StreamEvent :=
  mkStreamEvent PROOF_SUBMITTED "global" 0
    (<["agent" := agent]> (<["submitter" := submitter]> ∅)).

(** An event whose score is a string. *)
Definition text_quality_event : StreamEvent :=
  mkStreamEvent VERIFICATION_COMPLETE "global" 0
    (<["quality_score" := VStr "high"]> ∅).

(** The clients of a part of the registry whose filter list matches. *)
Definition targets_among (e : StreamEvent) (items : list (string * list StreamFilter))
  : list string :=
  map fst (List.filter (λ p : string * list StreamFilter, matches_true e p.2) items).

(** Matching returns for every entry of a part of the registry. *)
Definition matching_returns (e : StreamEvent) (items : list (string * list StreamFilter))
  : Prop :=
  Forall (λ p : string * list StreamFilter,
            ∃ b, _event_matches_filters e p.2 = Ret b) items.

(** The walk of [_emit_event] over the registry, read off the registry
    alone: the clients [_send_to_client] is called for, in registry order,
    up to the first entry on which matching raises, and how the walk
    ends. *)
Fixpoint served (e : StreamEvent) (items : list (string * list StreamFilter))
  : list string :=
  match items with
  | [] => []
  | (client_id, filters) :: rest =>
      match _event_matches_filters e filters with
      | Ret true => client_id :: served e rest
      | Ret false => served e rest
      | Raise _ => []
      end
  end.

Fixpoint emit_outcome (e : StreamEvent) (items : list (string * list StreamFilter))
  : res unit :=
  match items with
  | [] => Ret tt
  | (_, filters) :: rest =>
      match _event_matches_filters e filters with
      | Ret _ => emit_outcome e rest
      | Raise ex => Raise ex
      end
  end.

(** A registry whose second client declares a threshold, broadcast an event
    whose score is a string. *)
Definition threshold_subscriber : Server :=
  exec (_handle_subscription "c3"
          (mkFilterData None None [] (Some (1 # 2)) None))
    (exec (_handle_client_enter "c3" Healthy) two_clients).

(** A filter that declares a chain id and nothing else. *)
Definition chain_filter (cid : string) : StreamFilter :=
  mkStreamFilter None None None None (Some cid).

(** ** The client ([ProofStreamingClient]) *)

(** The client's end of a transport: whether [send] goes through, and the
    frames sent so far, as the values [json.dumps] was given. *)
Record client_socket := mkClientSocket {
  sock_ok : bool;
  sock_sent : list value
}.

Record Client := mkClient {
  c_websocket : option client_socket;
  c_connected : bool
}.

Inductive client_exn :=
| ConnectionError (msg : string)
| SendFailed.

Inductive client_res (A : Type) :=
| Done (a : A)
| Failed (e : client_exn).
Arguments Done {A} a.
Arguments Failed {A} e.

(** [_send_message] *)
Definition _send_message (message : value) (cl : Client) : client_res Client :=
  match c_connected cl, c_websocket cl with
  | true, Some sock =>
      if sock_ok sock
      then Done (mkClient (Some (mkClientSocket true (sock_sent sock ++ [message]))) true)
      else Failed SendFailed
  | _, _ => Failed (ConnectionError "Not connected to server")
  end.

(** [disconnect]: the socket is closed and kept. *)
Definition disconnect (cl : Client) : Client :=
  match c_websocket cl with
  | Some sock => mkClient (Some sock) false
  | None => cl
  end.

(** [d[k] = v] on a dictionary *)
Definition dict_set (k : string) (v : value) (d : list (string * value))
  : list (string * value) :=
  od_alter (λ _, v) v k d.

(** The filter [subscribe] sends: [filters or {}], with ["event_types"] set
    when [event_types] is a non-empty list. *)
Definition subscribe_filter (filters : option (list (string * value)))
    (event_types : option (list string)) : list (string * value) :=
  let filter := match filters with
                | Some (x :: d) => x :: d
                | _ => []
                end in
  match event_types with
  | Some (t :: ts) => dict_set "event_types" (VList (map VStr (t :: ts))) filter
  | _ => filter
  end.

(** The caller's [filters] object after [subscribe]: a non-empty dictionary
    is the very object that is sent, so the assignment shows in it; [None]
    and the empty dictionary are replaced by a fresh [{}] and stay as they
    are. *)
Definition filters_after_subscribe (filters : option (list (string * value)))
    (event_types : option (list string)) : option (list (string * value)) :=
  match filters with
  | Some (x :: d) => Some (subscribe_filter filters event_types)
  | other => other
  end.

Definition client_subscribe (filters : option (list (string * value)))
    (event_types : option (list string)) (cl : Client) : client_res Client :=
  _send_message
    (VDict [("type", VStr "subscribe");
            ("filter", VDict (subscribe_filter filters event_types))]) cl.

(** [submit_proof]; [architecture] is [None] when the caller leaves the
    keyword out, and then it is ["RWKV"]. *)
Definition client_submit_proof (sid : string) (proof_data : value)
    (public_inputs : list value) (architecture : option string) (cl : Client)
  : client_res Client :=
  _send_message
    (VDict [("type", VStr "submit_proof");
            ("stream_id", VStr sid);
            ("proof_data", proof_data);
            ("public_inputs", VList public_inputs);
            ("architecture", VStr (match architecture with
                                   | Some a => a
                                   | None => "RWKV"
                                   end))]) cl.

Definition client_create_stream (stream_spec : value) (cl : Client) : client_res Client :=
  _send_message (VDict [("type", VStr "create_stream"); ("stream_spec", stream_spec)]) cl.

(** A connected client with a working socket, and a filter dictionary. *)
Definition fresh_client : Client := mkClient (Some (mkClientSocket true [])) true.
Definition demo_filters : list (string * value) :=
  [("architectures", VList [VStr "RWKV"; VStr "Mamba"]);
   ("event_types", VList [VStr "stream_created"])].

(** * Verification *)

(** ** Filter matching *)

Lemma list_set_None {A} (o : option (list A)) :
  list_set o = None ↔ ∀ l, ¬ declares_list o l.
Proof.
  unfold declares_list. destruct o as [[|x l]|]; simpl.
  - split; [intros _ l [[= <-] H]; by apply H | done].
  - split; [done | intros H; destruct (H (x :: l)); done].
  - split; [intros _ l [? _]; done | done].
Qed.

Lemma list_set_Some {A} (o : option (list A)) l :
  list_set o = Some l ↔ declares_list o l.
Proof.
  unfold declares_list. destruct o as [[|x l']|]; simpl.
  - split; [done | intros [[= <-] H]; by destruct H].
  - split; [intros [= <-]; done | intros [[= <-] _]; done].
  - split; [done | intros [? _]; done].
Qed.

Lemma declared_check {A} (o : option (list A)) (b : list A → bool) (P : list A → Prop) :
  (∀ l, b l = false ↔ P l) →
  match list_set o with Some l => b l | None => false end = false ↔
  ∀ l, declares_list o l → P l.
Proof.
  intros Hb. destruct (list_set o) as [l|] eqn:E.
  - apply list_set_Some in E. rewrite Hb. split.
    + intros H l' [Hl' _]. destruct E as [E _].
      assert (l' = l) as -> by congruence. done.
    + intros H. by apply H.
  - split; [|done]. intros _ l Hl.
    by destruct (proj1 (list_set_None _) E l).
Qed.

Lemma skip_event_type_spec e f :
  skip_event_type e f = false ↔
  ∀ kinds, declares_list (event_types f) kinds → event_type e ∈ kinds.
Proof.
  apply declared_check. intros l.
  by rewrite negb_false_iff, bool_decide_eq_true.
Qed.

Lemma value_in_strs_spec v l :
  value_in_strs v l = true ↔ ∃ a, v = VStr a ∧ a ∈ l.
Proof.
  destruct v; simpl; try (split; [done | intros (a & [=] & _)]).
  rewrite bool_decide_eq_true. split; [eauto|]. by intros (a & [= <-] & ?).
Qed.

Lemma dict_get_VStr d k a : dict_get d k = VStr a ↔ d !! k = Some (VStr a).
Proof. unfold dict_get. destruct (d !! k); split; congruence. Qed.

Lemma skip_architecture_spec e f :
  skip_architecture e f = false ↔
  ∀ archs, declares_list (architectures f) archs →
    ∃ a, data e !! "architecture" = Some (VStr a) ∧ a ∈ archs.
Proof.
  apply declared_check. intros l.
  rewrite negb_false_iff, value_in_strs_spec.
  by setoid_rewrite dict_get_VStr.
Qed.

Lemma py_or_agent_identity e :
  py_or (dict_get (data e) "agent") (dict_get (data e) "submitter") = agent_identity e.
Proof.
  unfold py_or, agent_identity, dict_get at 1 2.
  destruct (data e !! "agent"); simpl; done.
Qed.

Lemma skip_agent_spec e f :
  skip_agent e f = false ↔
  ∀ ags, declares_list (agents f) ags → ∃ a, agent_identity e = VStr a ∧ a ∈ ags.
Proof.
  unfold skip_agent. cbv zeta. rewrite py_or_agent_identity.
  apply declared_check. intros l.
  by rewrite negb_false_iff, value_in_strs_spec.
Qed.

Lemma skip_chain_id_spec e f :
  skip_chain_id e f = false ↔
  ∀ c, declares_chain_id f c → data e !! "chain_id" = Some (VStr c).
Proof.
  unfold skip_chain_id, declares_chain_id, str_set.
  destruct (chain_id f) as [c|]; [|split; [intros _ c [? _]; done | done]].
  destruct (String.eqb c "") eqn:Ec.
  - apply String.eqb_eq in Ec. subst c. split; [|done].
    intros _ c [[= <-] H]. done.
  - apply String.eqb_neq in Ec. unfold value_ne_str. split.
    + intros H c' [[= <-] _]. apply dict_get_VStr.
      destruct (dict_get (data e) "chain_id"); try done.
      apply negb_false_iff, String.eqb_eq in H. by subst.
    + intros H. rewrite (proj2 (dict_get_VStr _ _ _) (H c (conj eq_refl Ec))).
      apply negb_false_iff, String.eqb_refl.
Qed.

Lemma Qltb_false a b : Qltb a b = false ↔ (b <= a)%Q.
Proof. unfold Qltb. by rewrite negb_false_iff, Qle_bool_iff. Qed.

Lemma py_lt_float_number v t q :
  number_of v = Some q → py_lt_float v t = Ret (Qltb q t).
Proof. destruct v; simpl; intros [= <-]; done. Qed.

Lemma float_set_Some o t : float_set o = Some t ↔ o = Some t ∧ ¬ (t == 0)%Q.
Proof.
  unfold float_set. destruct o as [t'|]; [|split; [done | intros [? _]; done]].
  destruct (Qeq_bool t' 0) eqn:E.
  - apply Qeq_bool_iff in E. split; [done|]. intros [[= <-] H]. done.
  - apply Qeq_bool_neq in E. split; [intros [= <-]; done | intros [[= <-] _]; done].
Qed.

Lemma skip_quality_spec e f :
  quality_is_number e →
  ∃ below, skip_quality e f = Ret below ∧
    (below = false ↔
     ∀ t, declares_threshold f t → ∃ q, quality_score e = Some q ∧ (t <= q)%Q).
Proof.
  intros [q Hq]. unfold skip_quality, declares_threshold.
  destruct (float_set (quality_threshold f)) as [t|] eqn:E.
  - apply float_set_Some in E. destruct E as [E Ht]. cbv zeta.
    assert (number_of (dict_get_default (data e) "quality_score" (VInt 0)) = Some q)
      as Hn.
    { unfold quality_score in Hq. unfold dict_get_default.
      destruct (data e !! "quality_score"); [done|]. by injection Hq as <-. }
    rewrite (py_lt_float_number _ _ _ Hn). eexists. split; [done|].
    rewrite Qltb_false. split.
    + intros H t' [Ht' _]. assert (t' = t) as -> by congruence. eauto.
    + intros H. destruct (H t) as (q' & Hq' & Hle); [done|].
      assert (q' = q) as -> by congruence. done.
  - exists false. split; [done|]. split; [|done]. intros _ t Ht.
    apply float_set_Some in Ht. congruence.
Qed.

Lemma filter_body_spec e f :
  quality_is_number e →
  ∃ hit, filter_body e f = Ret hit ∧ (hit = true ↔ satisfies e f).
Proof.
  intros Hnum. unfold filter_body.
  destruct (skip_event_type e f) eqn:E1.
  { exists false. split; [done|]. split; [done|]. intros [H _ _ _ _].
    apply skip_event_type_spec in H. congruence. }
  destruct (skip_architecture e f) eqn:E2.
  { exists false. split; [done|]. split; [done|]. intros [_ H _ _ _].
    apply skip_architecture_spec in H. congruence. }
  destruct (skip_agent e f) eqn:E3.
  { exists false. split; [done|]. split; [done|]. intros [_ _ H _ _].
    apply skip_agent_spec in H. congruence. }
  destruct (skip_quality_spec e f Hnum) as (below & -> & Hq). simpl.
  destruct below.
  { exists false. split; [done|]. split; [done|]. intros [_ _ _ H _].
    apply Hq in H. congruence. }
  destruct (skip_chain_id e f) eqn:E5.
  { exists false. split; [done|]. split; [done|]. intros [_ _ _ _ H].
    apply skip_chain_id_spec in H. congruence. }
  exists true. split; [done|]. split; [|done]. intros _. constructor.
  - by apply skip_event_type_spec.
  - by apply skip_architecture_spec.
  - by apply skip_agent_spec.
  - by apply Hq.
  - by apply skip_chain_id_spec.
Qed.

Lemma filters_loop_spec e fs :
  quality_is_number e →
  ∃ b, filters_loop e fs = Ret b ∧ (b = true ↔ ∃ f, f ∈ fs ∧ satisfies e f).
Proof.
  intros Hnum. induction fs as [|f fs IH]; simpl.
  - exists false. split; [done|]. split; [done|]. intros (f & Hf & _).
    by apply elem_of_nil in Hf.
  - destruct (filter_body_spec e f Hnum) as (hit & -> & Hhit). simpl.
    destruct hit.
    + exists true. split; [done|]. split; [|done]. intros _. exists f.
      split; [apply elem_of_cons; by left | by apply Hhit].
    + destruct IH as (b & -> & Hb). exists b. split; [done|]. rewrite Hb. split.
      * intros (g & Hg & Hsat). exists g. split; [apply elem_of_cons; by right | done].
      * intros (g & Hg & Hsat). apply elem_of_cons in Hg as [-> | Hg]; [|eauto].
        apply Hhit in Hsat. done.
Qed.


Lemma event_matches_filters_returns e fs :
  quality_is_number e →
  ∃ b, _event_matches_filters e fs = Ret b ∧ (b = true ↔ matches_spec e fs).
Proof.
  intros Hnum. unfold matches_spec. destruct fs as [|f fs].
  - exists true. split; [done|]. split; [by left | done].
  - destruct (filters_loop_spec e (f :: fs) Hnum) as (b & Hb & Hiff).
    exists b. split; [exact Hb|]. rewrite Hiff. split; [by right|].
    intros [? | ?]; done.
Qed.











(** The agent the engine compares is [data.agent] when that names one, and
    [data.submitter] when it is blank. *)
Example agent_fallback_scenario :
  _event_matches_filters (agent_event (VStr "alice") (VStr "bob")) [agents_filter ["alice"]]
  = Ret true ∧
  _event_matches_filters (agent_event (VStr "alice") (VStr "bob")) [agents_filter ["bob"]]
  = Ret false ∧
  _event_matches_filters (agent_event (VStr "") (VStr "bob")) [agents_filter ["bob"]]
  = Ret true ∧
  agent_of (agent_event (VStr "alice") (VStr "bob")) = Some (VStr "alice") ∧
  agent_of (agent_event (VStr "") (VStr "bob")) = Some (VStr "bob").
Proof. repeat split; vm_compute; reflexivity. Qed.

(** The scenario of the two clients: the filter [{architectures: ["RWKV"]}]
    rejects the Mamba event, the filter [{}] accepts it. *)
Example mamba_scenario :
  _event_matches_filters mamba_event [rwkv_filter] = Ret false ∧
  _event_matches_filters mamba_event [empty_filter] = Ret true.
Proof. split; vm_compute; reflexivity. Qed.

(** ** Quality threshold *)

(** A threshold other than zero is enforced: the single filter matches
    exactly when the score, 0 when absent, is at least the threshold. *)
Lemma threshold_filter_nonzero e t q :
  ¬ (t == 0)%Q → quality_score e = Some q →
  _event_matches_filters e [threshold_filter t] = Ret (Qle_bool t q).
Proof.
  intros Ht Hq. simpl. unfold filter_body. simpl.
  unfold skip_quality. simpl.
  destruct (Qeq_bool t 0) eqn:E; [by apply Qeq_bool_iff in E|].
  assert (number_of (dict_get_default (data e) "quality_score" (VInt 0)) = Some q)
    as Hn.
  { unfold quality_score in Hq. unfold dict_get_default.
    destruct (data e !! "quality_score"); [done|]. by injection Hq as <-. }
  rewrite (py_lt_float_number _ _ _ Hn). simpl. unfold Qltb.
  by destruct (Qle_bool t q).
Qed.

(** C7.  A threshold set to 0 imposes no constraint: [if f.quality_threshold:]
    is false for [0], the score is never read, and the filter matches every
    event, also the one whose score [-1] is below the threshold. *)
Theorem zero_threshold_not_enforced :
  (∀ e, _event_matches_filters e [threshold_filter 0] = Ret true) ∧
  quality_score negative_quality_event = Some (-1 # 1)%Q ∧
  ¬ (0 <= -1 # 1)%Q ∧
  _event_matches_filters negative_quality_event [threshold_filter 0] = Ret true.
Proof.
  split; [reflexivity|]. split; [reflexivity|]. split; [|reflexivity].
  intros H. by apply Qle_bool_iff in H.
Qed.

(** ** Sending *)

Lemma send_unknown c m s :
  connected_clients s !! c = None → _send_to_client c m s = (Ret tt, s).
Proof. intros H. unfold _send_to_client. by rewrite H. Qed.

Lemma send_delivers c m s :
  connected_clients s !! c = Some Healthy → json_dumps_ok m = true →
  _send_to_client c m s = (Ret tt, set_wire s (wire s ++ [(c, m)])).
Proof. intros H Hj. unfold _send_to_client. by rewrite H, Hj. Qed.


Lemma send_returns c m s : outcome (_send_to_client c m) s = Ret tt.
Proof.
  unfold outcome, _send_to_client.
  destruct (connected_clients s !! c); [|done].
  by destruct (json_dumps_ok m && send_ok _).
Qed.

Lemma send_keeps_registries c m s :
  let s' := exec (_send_to_client c m) s in
  client_subscriptions s' = client_subscriptions s ∧
  active_streams s' = active_streams s ∧
  metrics s' = metrics s ∧
  _events_since_last_update s' = _events_since_last_update s ∧
  _last_metrics_update s' = _last_metrics_update s.
Proof.
  unfold exec, _send_to_client.
  destruct (connected_clients s !! c); [|done].
  by destruct (json_dumps_ok m && send_ok _).
Qed.

Lemma frames_to_app c s w :
  frames_to c (set_wire s (wire s ++ w))
  = frames_to c s ++ omap (λ p : string * message,
                             if String.eqb p.1 c then Some p.2 else None) w.
Proof. unfold frames_to. simpl. apply omap_app. Qed.

Lemma send_other_view c c' m s :
  c' ≠ c → view c (exec (_send_to_client c' m) s) = view c s.
Proof.
  intros Hne. unfold exec, _send_to_client, view.
  destruct (connected_clients s !! c') as [ws|]; [|done].
  destruct (json_dumps_ok m && send_ok ws); simpl.
  - rewrite frames_to_app. simpl.
    destruct (String.eqb c' c) eqn:E; [by apply String.eqb_eq in E|].
    by rewrite app_nil_r.
  - by rewrite lookup_delete_ne.
Qed.

(** ** Broadcast *)

Ltac unfold_monad :=
  unfold exec, outcome, mbind, M_bind, mret, M_ret, lift, modify, get_state,
         raise, mtry in *.

Lemma emit_loop_step e m c fs items s :
  emit_loop e m ((c, fs) :: items) s =
  match _event_matches_filters e fs with
  | Ret true => emit_loop e m items (exec (_send_to_client c m) s)
  | Ret false => emit_loop e m items s
  | Raise ex => (Raise ex, s)
  end.
Proof.
  simpl. unfold_monad. destruct (_event_matches_filters e fs) as [[|]|ex]; try done.
  pose proof (send_returns c m s) as Hr. unfold outcome in Hr.
  destruct (_send_to_client c m s) as [r s']. simpl in *. by subst r.
Qed.



Lemma emit_event_unfold e now s :
  _emit_event e now s
  = emit_loop e (msg_stream_event e now) (client_subscriptions s)
              (bump_event_counters s).
Proof. reflexivity. Qed.

Lemma connect_keeps_subscriptions c ws s :
  client_subscriptions (exec (_handle_client_enter c ws) s) = client_subscriptions s.
Proof.
  unfold _handle_client_enter. unfold_monad. simpl.
  match goal with |- context [_send_to_client ?a ?b ?st] =>
    pose proof (send_keeps_registries a b st) as [H _] end.
  unfold exec in H. by rewrite H.
Qed.

(** The walk, whatever the event and the filters. *)
Lemma emit_loop_run e m items :
  ∀ s, emit_loop e m items s
       = (emit_outcome e items, send_all m (served e items) s).
Proof.
  induction items as [|[c fs] items IH]; intros s; [done|].
  rewrite emit_loop_step. simpl.
  destruct (_event_matches_filters e fs) as [[|]|ex]; [| |done]; apply IH.
Qed.

Lemma emit_event_run e now s :
  _emit_event e now s
  = (emit_outcome e (client_subscriptions s),
     send_all (msg_stream_event e now) (served e (client_subscriptions s))
              (bump_event_counters s)).
Proof. rewrite emit_event_unfold. apply emit_loop_run. Qed.



Lemma emit_outcome_raise e items ex :
  emit_outcome e items = Raise ex →
  ∃ c filters, (c, filters) ∈ items ∧ _event_matches_filters e filters = Raise ex.
Proof.
  induction items as [|[c fs] items IH]; simpl; [done|].
  destruct (_event_matches_filters e fs) as [b|ex'] eqn:E.
  - intros H. destruct (IH H) as (c' & fs' & Hin & Hm). exists c', fs'.
    split; [apply elem_of_cons; by right | done].
  - intros [= ->]. exists c, fs. split; [apply elem_of_cons; by left | done].
Qed.




(** ** Subscription registry *)

Lemma od_lookup_alter {V} (f : V → V) (d : V) c (l : list (string * V)) :
  od_lookup c (od_alter f d c l)
  = Some (f (match od_lookup c l with Some v => v | None => d end)).
Proof.
  induction l as [|[c' v] l IH]; simpl.
  - by rewrite String.eqb_refl.
  - destruct (String.eqb c' c) eqn:E; simpl; rewrite E; done.
Qed.


Lemma subscriptions_of_alter (f : list StreamFilter → list StreamFilter) c s :
  subscriptions_of
    (set_client_subscriptions s (od_alter f [] c (client_subscriptions s))) c
  = f (subscriptions_of s c).
Proof. unfold subscriptions_of. simpl. by rewrite od_lookup_alter. Qed.


Lemma subscribe_ok c fd f s :
  build_filter fd = Ret f →
  _handle_subscription c fd s
  = _send_to_client c (msg_subscription_confirmed f (length (subscriptions_of s c)))
      (set_client_subscriptions s
         (od_alter (λ l, l ++ [f]) [] c (client_subscriptions s))).
Proof.
  intros Hb. unfold _handle_subscription. unfold_monad. rewrite Hb.
  cbv beta iota. rewrite subscriptions_of_alter, length_app, Nat.add_sub.
  match goal with |- context [_send_to_client ?a ?b ?st] =>
    pose proof (send_returns a b st) as Hr; unfold outcome in Hr;
    destruct (_send_to_client a b st) as [r s'] end.
  simpl in Hr. by subst r.
Qed.

Lemma subscribe_raises c fd e s :
  build_filter fd = Raise e →
  _handle_subscription c fd s = _send_to_client c (msg_subscription_error (exn_str e)) s.
Proof. intros Hb. unfold _handle_subscription. unfold_monad. by rewrite Hb. Qed.

Lemma unsubscribe_at_run c sid i s :
  unsubscribe_at c sid i s
  = _send_to_client c (msg_unsubscription_confirmed sid)
      (set_client_subscriptions s (od_alter (delete i) [] c (client_subscriptions s))).
Proof. reflexivity. Qed.

Lemma unsubscribe_all_run c s :
  unsubscribe_all c s
  = _send_to_client c msg_all_subscriptions_cleared
      (set_client_subscriptions s (od_alter (λ _, []) [] c (client_subscriptions s))).
Proof. reflexivity. Qed.

Lemma unsubscribe_unfold c sid s filters :
  od_lookup c (client_subscriptions s) = Some filters →
  _handle_unsubscription c sid s =
  match index_in_range sid (length filters) with
  | Ret true =>
      match list_index sid with
      | Ret i => unsubscribe_at c sid i s
      | Raise e => (Raise e, s)
      end
  | Ret false => unsubscribe_all c s
  | Raise e => (Raise e, s)
  end.
Proof.
  intros H. unfold _handle_unsubscription. unfold_monad. rewrite H.
  by destruct (index_in_range sid (length filters)) as [[|]|e].
Qed.

Lemma index_in_range_nat (i n : nat) :
  i < n → index_in_range (VInt (Z.of_nat i)) n = Ret true.
Proof.
  intros Hi. simpl. f_equal. apply andb_true_iff.
  split; [apply Z.leb_le | apply Z.ltb_lt]; lia.
Qed.





(** ** Failed subscriptions *)





(** ** Metrics *)

Lemma emit_loop_keeps e m items :
  ∀ s, let s' := exec (emit_loop e m items) s in
       client_subscriptions s' = client_subscriptions s ∧
       active_streams s' = active_streams s ∧
       metrics s' = metrics s ∧
       _events_since_last_update s' = _events_since_last_update s ∧
       _last_metrics_update s' = _last_metrics_update s.
Proof.
  induction items as [|[c fs] items IH]; intros s; cbv zeta; [done|].
  unfold exec in *. rewrite emit_loop_step.
  destruct (_event_matches_filters e fs) as [[|]|ex]; [|by apply IH|done].
  destruct (IH ((_send_to_client c m s).2)) as (H1 & H2 & H3 & H4 & H5).
  destruct (send_keeps_registries c m s) as (K1 & K2 & K3 & K4 & K5).
  unfold exec in *. repeat split; congruence.
Qed.

Lemma emit_counts_once e now s :
  let s' := exec (_emit_event e now) s in
  _events_since_last_update s' = S (_events_since_last_update s) ∧
  total_events (metrics s') = S (total_events (metrics s)).
Proof.
  cbv zeta. unfold exec. rewrite emit_event_unfold.
  destruct (emit_loop_keeps e (msg_stream_event e now) (client_subscriptions s)
                            (bump_event_counters s)) as (_ & _ & Hm & Hs & _).
  unfold exec in Hm, Hs. by rewrite Hm, Hs.
Qed.

(** C9, as the code has it.  A tick always resets the since-last-tick
    counter and records the reading of the clock; it sets
    [events_per_second] to the events since the previous tick divided by the
    elapsed time when that time is positive, and leaves it as it was
    otherwise.  [_emit_event] adds one to the since-last-tick counter and one
    to [total_events]; ten events over five time units give a rate of 2. *)
Theorem metrics_tick_rate (s : Server) (now : Q) :
  let s' := _update_metrics_loop_body now s in
  let elapsed := (now - _last_metrics_update s)%Q in
  _events_since_last_update s' = 0 ∧
  _last_metrics_update s' = now ∧
  ((0 < elapsed)%Q →
   events_per_second (metrics s')
   = (inject_Z (Z.of_nat (_events_since_last_update s)) / elapsed)%Q) ∧
  (¬ (0 < elapsed)%Q →
   events_per_second (metrics s') = events_per_second (metrics s)) ∧
  (∀ e t, let s2 := exec (_emit_event e t) s in
          _events_since_last_update s2 = S (_events_since_last_update s) ∧
          total_events (metrics s2) = S (total_events (metrics s))) ∧
  (events_per_second (metrics (_update_metrics_loop_body 5 (ten_events 0))) == 2)%Q.
Proof.
  cbv zeta. unfold _update_metrics_loop_body. simpl.
  split; [done|]. split; [done|]. split; [|split; [|split]].
  - intros H. unfold Qltb.
    destruct (Qle_bool (now - _last_metrics_update s) 0) eqn:E; [|done].
    apply Qle_bool_iff in E. by apply Qle_not_lt in E.
  - intros H. unfold Qltb.
    destruct (Qle_bool (now - _last_metrics_update s) 0) eqn:E; [done|].
    destruct H. apply Qnot_le_lt. intros Hle. apply Qle_bool_iff in Hle. congruence.
  - intros e t. apply emit_counts_once.
  - vm_compute. reflexivity.
Qed.

Lemma metrics_tick_rate_witness :
  (0 < 5 - _last_metrics_update (ten_events 0))%Q ∧
  _events_since_last_update (ten_events 0) = 10 ∧
  events_per_second (metrics (_update_metrics_loop_body 5 (ten_events 0)))
  = (inject_Z (Z.of_nat (_events_since_last_update (ten_events 0)))
     / (5 - _last_metrics_update (ten_events 0)))%Q.
Proof.
  assert (0 < 5 - _last_metrics_update (ten_events 0))%Q as H
    by (vm_compute; reflexivity).
  split; [exact H|]. split; [vm_compute; reflexivity|].
  destruct (metrics_tick_rate (ten_events 0) 5) as (_ & _ & Hrate & _).
  exact (Hrate H).
Defined.

(** C9 as stated fails when the clock has been set back between two ticks:
    ten events since the tick at time 10, the next reading is 5, and the
    rate stays at its old value 0 instead of becoming 10 / (5 - 10). *)
Lemma metrics_tick_clock_set_back :
  _events_since_last_update (ten_events 10) = 10 ∧
  _last_metrics_update (ten_events 10) = 10%Q ∧
  events_per_second (metrics (_update_metrics_loop_body 5 (ten_events 10))) = 0%Q ∧
  ¬ (events_per_second (metrics (_update_metrics_loop_body 5 (ten_events 10)))
     == inject_Z (Z.of_nat (_events_since_last_update (ten_events 10)))
        / (5 - _last_metrics_update (ten_events 10)))%Q.
Proof.
  split; [vm_compute; reflexivity|]. split; [vm_compute; reflexivity|].
  split; [vm_compute; reflexivity|]. vm_compute. discriminate.
Qed.

(** ** Teardown *)

Lemma emit_loop_closed e m items c :
  ∀ s, connected_clients s !! c = None →
       view c (exec (emit_loop e m items) s) = view c s.
Proof.
  induction items as [|[c' fs] items IH]; intros s Hc; [done|].
  unfold exec in *. rewrite emit_loop_step.
  destruct (_event_matches_filters e fs) as [[|]|ex]; [|by apply IH|done].
  assert (view c (exec (_send_to_client c' m) s) = view c s) as Hv.
  { destruct (decide (c' = c)) as [->|Hne]; [|by apply send_other_view].
    unfold exec. by rewrite send_unknown. }
  unfold exec in Hv. rewrite IH; [done|].
  unfold view in Hv. injection Hv as Hv _. unfold exec. by rewrite Hv.
Qed.

(** Once a client is out of the connection table, a broadcast sends it
    nothing. *)
Lemma closed_client_gets_nothing e now c s :
  connected_clients s !! c = None →
  view c (exec (_emit_event e now) s) = view c s.
Proof.
  intros Hc.
  change (view c (exec (emit_loop e (msg_stream_event e now) (client_subscriptions s))
                       (bump_event_counters s)) = view c s).
  by rewrite emit_loop_closed.
Qed.

(** The [finally] block removes the client from both tables. *)
Lemma cleanup_removes_both c s :
  let s' := exec (_handle_client_finally c) s in
  connected_clients s' !! c = None ∧
  (NoDup (map fst (client_subscriptions s)) →
   od_lookup c (client_subscriptions s') = None).
Proof.
  cbv zeta. unfold _handle_client_finally. unfold_monad. simpl.
  split; [by rewrite lookup_delete_eq|].
  induction (client_subscriptions s) as [|[k v] l IH]; [done|].
  simpl. intros Hnd. apply NoDup_cons in Hnd as [Hk Hnd].
  destruct (String.eqb k c) eqn:E; simpl.
  - apply String.eqb_eq in E. subst k.
    clear IH Hnd. induction l as [|[k' v'] l IH]; [done|]. simpl.
    destruct (String.eqb k' c) eqn:E'.
    + apply String.eqb_eq in E'. subst k'. destruct Hk. simpl. apply elem_of_cons.
      by left.
    + apply IH. intros Hin. apply Hk. simpl. apply elem_of_cons. by right.
  - rewrite E. by apply IH.
Qed.

(** C6.  The transport of the subscribed client [c2] breaks and an event is
    broadcast: the failed send takes [c2] out of the connection table and
    leaves its filter list in the subscription registry, a state the
    [finally] block of [_handle_client] never leaves behind. *)
Theorem send_failure_half_removes :
  let s := transport_breaks "c2" two_clients in
  let s' := exec (_emit_event mamba_event 1) s in
  connected_clients s !! "c2" = Some Broken ∧
  od_lookup "c2" (client_subscriptions s) = Some [empty_filter] ∧
  connected_clients s' !! "c2" = None ∧
  od_lookup "c2" (client_subscriptions s') = Some [empty_filter] ∧
  connected_clients (exec (_handle_client_finally "c2") s) !! "c2" = None ∧
  od_lookup "c2" (client_subscriptions (exec (_handle_client_finally "c2") s)) = None.
Proof. cbv zeta. repeat split; vm_compute; reflexivity. Qed.

(** ** Stream registry *)

Lemma emit_keeps_streams e now s :
  active_streams (_emit_event e now s).2 = active_streams s.
Proof.
  destruct (emit_loop_keeps e (msg_stream_event e now) (client_subscriptions s)
                            (bump_event_counters s)) as (_ & H2 & _).
  unfold exec in *. rewrite emit_event_unfold. by rewrite H2.
Qed.


Lemma send_keeps_streams c m s :
  active_streams (_send_to_client c m s).2 = active_streams s.
Proof. by destruct (send_keeps_registries c m s) as (_ & H & _). Qed.


Lemma keeps_ret {A} (a : A) : keeps_streams (mret a).
Proof. by intros s. Qed.

Lemma keeps_raise {A} e : keeps_streams (raise e : M A).
Proof. by intros s. Qed.

Lemma keeps_lift {A} (r : res A) : keeps_streams (lift r).
Proof. by intros s. Qed.

Lemma keeps_get : keeps_streams get_state.
Proof. by intros s. Qed.

Lemma keeps_send c m : keeps_streams (_send_to_client c m).
Proof. intros s. apply send_keeps_streams. Qed.


Lemma keeps_set_subscriptions f :
  keeps_streams (modify (λ s, set_client_subscriptions s (f s))).
Proof. by intros s. Qed.

Lemma keeps_bind {A B} (m : M A) (k : A → M B) :
  keeps_streams m → (∀ a, keeps_streams (k a)) → keeps_streams (m ≫= k).
Proof.
  intros Hm Hk s. unfold_monad. specialize (Hm s).
  destruct (m s) as [[a|e] s1]; simpl in *; [|done].
  by rewrite Hk.
Qed.

Lemma keeps_mtry {A} (m : M A) (h : exn → M A) :
  keeps_streams m → (∀ e, keeps_streams (h e)) → keeps_streams (mtry m h).
Proof.
  intros Hm Hh s. unfold_monad. specialize (Hm s).
  destruct (m s) as [[a|e] s1]; simpl in *; [done|].
  by rewrite Hh.
Qed.

Lemma subscribe_keeps_streams c fd : keeps_streams (_handle_subscription c fd).
Proof.
  apply keeps_mtry; [|intros e; apply keeps_send].
  apply keeps_bind; [apply keeps_lift|]. intros f.
  apply keeps_bind; [apply (keeps_set_subscriptions (λ s, od_alter _ _ _ _))|].
  intros _. apply keeps_bind; [apply keeps_get|]. intros s. apply keeps_send.
Qed.

Lemma unsubscribe_keeps_streams c sid : keeps_streams (_handle_unsubscription c sid).
Proof.
  apply keeps_bind; [apply keeps_get|]. intros s.
  destruct (od_lookup c (client_subscriptions s)); [|apply keeps_ret].
  apply keeps_bind; [apply keeps_lift|]. intros [|].
  - apply keeps_bind; [apply keeps_lift|]. intros i.
    apply keeps_bind; [apply (keeps_set_subscriptions (λ s, od_alter _ _ _ _))|].
    intros _. apply keeps_send.
  - apply keeps_bind; [apply (keeps_set_subscriptions (λ s, od_alter _ _ _ _))|].
    intros _. apply keeps_send.
Qed.

Lemma keeps_dispatch (body : M unit) c :
  keeps_streams body →
  keeps_streams
    (mtry body
       (λ e, match e with
             | JSONDecodeError _ => _send_to_client c (msg_error "Invalid JSON format")
             | _ => _send_to_client c (msg_error (exn_str e))
             end)).
Proof. intros H. apply keeps_mtry; [done|]. intros e. destruct e; apply keeps_send. Qed.

Lemma mtry_outcome (m : M unit) (h : exn → M unit) s :
  (∀ e s', (h e s').1 = Ret tt) → (mtry m h s).1 = Ret tt.
Proof. intros H. unfold mtry. destruct (m s) as [[[]|e] s1]; [done | apply H]. Qed.

Section runtime_facts.
Variable sha256_hexdigest : string → string.
Variable py_str : value → string.
Variable float_str : Q → string.
Variable encode_error : string → option string.

Local Abbreviation create_stream :=
  (_handle_create_stream sha256_hexdigest py_str float_str encode_error).
Local Abbreviation submit_proof :=
  (_handle_proof_submission sha256_hexdigest py_str encode_error).
Local Abbreviation handle_message :=
  (_handle_client_message sha256_hexdigest py_str float_str encode_error).
Local Abbreviation stream_id_of := (make_stream_id sha256_hexdigest py_str float_str).
Local Abbreviation submitted_event := (proof_submitted_event sha256_hexdigest py_str).

Lemma encode_None text :
  encode_error text = None → encode encode_error text = Ret tt.
Proof. unfold encode. by intros ->. Qed.

Lemma encode_Some text msg :
  encode_error text = Some msg → encode encode_error text = Raise (UnicodeEncodeError msg).
Proof. unfold encode. by intros ->. Qed.

(** When the id text can be encoded, the stream is stored and the reply
    sent, and then comes the broadcast, still inside the [try]. *)
Lemma create_stream_run c spec t1 t2 t3 t4 s :
  encode_error (stream_id_text py_str float_str c spec t1) = None →
  let k := stream_id_of c spec t1 in
  create_stream c spec t1 t2 t3 t4 s
  = mtry (_emit_event (stream_created_event c k spec t3) t4)
         (λ e, _send_to_client c (msg_stream_creation_error (exn_str e)))
      (exec (_send_to_client c (msg_stream_created k spec))
         (refresh_streams_metric
            (set_active_streams s
               (<[k := mkStream k c spec t2 0 []]> (active_streams s))))).
Proof.
  intros Henc. cbv zeta. unfold _handle_create_stream.
  unfold_monad. rewrite (encode_None _ Henc). simpl.
  match goal with |- context [_send_to_client ?a ?b ?st] =>
    pose proof (send_returns a b st) as Hr; unfold outcome in Hr;
    destruct (_send_to_client a b st) as [r s1] end.
  simpl in Hr. subst r. simpl.
  by destruct (_emit_event _ _ s1) as [[[]|e] s2].
Qed.

(** When it cannot, nothing is stored and the error is the reply. *)
Lemma create_stream_unencodable c spec t1 t2 t3 t4 s msg :
  encode_error (stream_id_text py_str float_str c spec t1) = Some msg →
  create_stream c spec t1 t2 t3 t4 s
  = _send_to_client c (msg_stream_creation_error msg) s.
Proof.
  intros Henc. unfold _handle_create_stream.
  unfold_monad. by rewrite (encode_Some _ _ Henc).
Qed.

Lemma create_stream_streams c spec t1 t2 t3 t4 s :
  encode_error (stream_id_text py_str float_str c spec t1) = None →
  let k := stream_id_of c spec t1 in
  active_streams (exec (create_stream c spec t1 t2 t3 t4) s)
  = <[k := mkStream k c spec t2 0 []]> (active_streams s).
Proof.
  intros Henc. cbv zeta. unfold exec. rewrite (create_stream_run _ _ _ _ _ _ _ Henc).
  cbv zeta. unfold exec.
  rewrite (keeps_mtry _ _ (emit_keeps_streams _ _) (λ e, keeps_send _ _)).
  by rewrite send_keeps_streams.
Qed.

Lemma registered_stream_cases sid s :
  match stream_key s sid with
  | Some k => registered_stream py_str sid s = (Ret k, s)
  | None => ∃ e, registered_stream py_str sid s = (Raise e, s)
  end.
Proof.
  unfold stream_key, registered_stream. unfold_monad.
  destruct sid; try (eexists; reflexivity).
  destruct (active_streams s !! s0); [done|]. eexists; reflexivity.
Qed.

Lemma submit_unregistered c sid pd pi arch t1 t2 s :
  stream_key s sid = None →
  ∃ e, registered_stream py_str sid s = (Raise e, s) ∧
       submit_proof c sid pd pi arch t1 t2 s
       = _send_to_client c (msg_proof_submission_error (exn_str e)) s.
Proof.
  intros Hk. pose proof (registered_stream_cases sid s) as Hr. rewrite Hk in Hr.
  destruct Hr as [e He]. exists e. split; [done|].
  unfold _handle_proof_submission. unfold_monad. by rewrite He.
Qed.

Lemma payload_encode_error_None pd pi :
  payload_encode_error py_str encode_error pd pi = None ↔
  encode_error (py_str pd) = None ∧ encode_error (py_str pi) = None.
Proof.
  unfold payload_encode_error. destruct (encode_error (py_str pd)); [|tauto].
  split; [done | by intros [? _]].
Qed.

(** A payload that cannot be encoded stops the handler before the
    broadcast. *)
Lemma submit_unencodable c sid k pd pi arch t1 t2 s msg :
  stream_key s sid = Some k →
  payload_encode_error py_str encode_error pd pi = Some msg →
  submit_proof c sid pd pi arch t1 t2 s
  = _send_to_client c (msg_proof_submission_error msg) s.
Proof.
  intros Hk Henc. pose proof (registered_stream_cases sid s) as Hr. rewrite Hk in Hr.
  unfold _handle_proof_submission. unfold_monad. rewrite Hr.
  unfold payload_encode_error in Henc. unfold encode.
  destruct (encode_error (py_str pd)) as [m|]; [by injection Henc as ->|].
  by rewrite Henc.
Qed.

(** For a registered stream and a payload that can be encoded the broadcast
    comes next; the count and the reply follow if it returns, the error
    reply if it raises. *)
Lemma submit_registered c sid k pd pi arch t1 t2 s :
  stream_key s sid = Some k →
  payload_encode_error py_str encode_error pd pi = None →
  submit_proof c sid pd pi arch t1 t2 s
  = match _emit_event (submitted_event c k pd pi arch t1) t2 s with
    | (Ret _, s1) =>
        _send_to_client c (msg_proof_submitted k)
          (set_active_streams s1 (alter count_event k (active_streams s1)))
    | (Raise e, s1) =>
        _send_to_client c (msg_proof_submission_error (exn_str e)) s1
    end.
Proof.
  intros Hk Henc. pose proof (registered_stream_cases sid s) as Hr. rewrite Hk in Hr.
  apply payload_encode_error_None in Henc as [H1 H2].
  unfold _handle_proof_submission.
  unfold_monad. rewrite Hr. rewrite (encode_None _ H1), (encode_None _ H2).
  destruct (_emit_event _ _ s) as [[[]|e] s1]; [|done]. simpl.
  match goal with |- context [_send_to_client ?a ?b ?st] =>
    pose proof (send_returns a b st) as Hs; unfold outcome in Hs;
    destruct (_send_to_client a b st) as [r s2] end.
  simpl in Hs. by subst r.
Qed.

Lemma submit_streams c sid pd pi arch t1 t2 s :
  active_streams (submit_proof c sid pd pi arch t1 t2 s).2
  = match stream_key s sid, payload_encode_error py_str encode_error pd pi with
    | Some k, None =>
        match outcome (_emit_event (submitted_event c k pd pi arch t1) t2) s with
        | Ret _ => alter count_event k (active_streams s)
        | Raise _ => active_streams s
        end
    | _, _ => active_streams s
    end.
Proof.
  destruct (stream_key s sid) as [k|] eqn:Hk.
  - destruct (payload_encode_error py_str encode_error pd pi) as [msg|] eqn:Henc.
    + rewrite (submit_unencodable _ _ _ _ _ _ _ _ _ _ Hk Henc).
      by rewrite send_keeps_streams.
    + rewrite (submit_registered _ _ _ _ _ _ _ _ _ Hk Henc). unfold outcome.
      pose proof (emit_keeps_streams (submitted_event c k pd pi arch t1) t2 s) as He.
      destruct (_emit_event _ _ s) as [[[]|e] s1]; simpl in *;
        rewrite send_keeps_streams; simpl; by rewrite He.
  - destruct (submit_unregistered c sid pd pi arch t1 t2 s Hk) as (e & _ & ->).
    by rewrite send_keeps_streams.
Qed.

Lemma submit_proof_returns c sid pd pi arch t1 t2 s :
  (submit_proof c sid pd pi arch t1 t2 s).1 = Ret tt.
Proof.
  apply mtry_outcome. intros e s'. apply send_returns.
Qed.

Lemma create_stream_outcome c spec t1 t2 t3 t4 s :
  (create_stream c spec t1 t2 t3 t4 s).1 = Ret tt.
Proof.
  apply mtry_outcome. intros e s'. apply send_returns.
Qed.

Lemma handle_message_streams c fr clock s :
  active_streams (handle_message c fr clock s).2 = active_streams s ∨
  (∃ spec, fr = Object (CreateStream spec) ∧
     let k := stream_id_of c spec (clock 0) in
     active_streams (handle_message c fr clock s).2
     = <[k := mkStream k c spec (clock 1) 0 []]> (active_streams s)) ∨
  (∃ k, active_streams (handle_message c fr clock s).2
        = alter count_event k (active_streams s)).
Proof.
  unfold _handle_client_message.
  destruct fr as [e|v|[fd|sid|spec|sid pd pi arch| |ty]].
  - left. apply keeps_dispatch, keeps_raise.
  - left. apply keeps_dispatch, keeps_raise.
  - left. apply keeps_dispatch, subscribe_keeps_streams.
  - left. apply keeps_dispatch, unsubscribe_keeps_streams.
  - pose proof (create_stream_outcome c spec (clock 0) (clock 1) (clock 2) (clock 3) s)
      as Hret.
    destruct (encode_error (stream_id_text py_str float_str c spec (clock 0)))
      as [msg|] eqn:Henc.
    + left. pose proof (create_stream_unencodable c spec (clock 0) (clock 1) (clock 2)
                          (clock 3) s msg Henc) as Hrun.
      unfold_monad.
      destruct (_handle_create_stream _ _ _ _ _ _ _ _ _ _ s) as [r s1].
      simpl in Hret. subst r. simpl.
      change s1 with ((Ret tt : res unit), s1).2. rewrite Hrun.
      apply send_keeps_streams.
    + right. left. exists spec. split; [done|]. cbv zeta.
      pose proof (create_stream_streams c spec (clock 0) (clock 1) (clock 2) (clock 3) s
                    Henc) as H. cbv zeta in H. unfold exec in *.
      rewrite <- H. unfold_monad.
      destruct (_handle_create_stream _ _ _ _ _ _ _ _ _ _ s) as [r s1].
      simpl in Hret. by subst r.
  - pose proof (submit_streams c sid pd pi arch (clock 0) (clock 1) s) as H.
    pose proof (submit_proof_returns c sid pd pi arch (clock 0) (clock 1) s) as Hret.
    unfold_monad.
    destruct (_handle_proof_submission _ _ _ _ _ _ _ _ _ _ s) as [r s1].
    simpl in *. subst r. destruct (stream_key s sid) as [k|]; [|eauto].
    destruct (payload_encode_error _ _ _ _); [eauto|].
    destruct (_emit_event _ _ s).1; eauto.
  - left. apply keeps_dispatch, keeps_send.
  - left. apply keeps_dispatch, keeps_send.
Qed.
End runtime_facts.

(** The id text is read back unambiguously when neither the creator nor
    the rendering of the clock has an underscore: the creator ends at the
    first underscore, the clock reading begins after the last. *)
Lemma app_String a x y : (String a x ++ y)%string = String a (x ++ y)%string.
Proof. reflexivity. Qed.

Lemma app_Empty y : ("" ++ y)%string = y.
Proof. reflexivity. Qed.

Lemma no_underscore_app x y : no_underscore (x ++ String "_"%char y)%string = false.
Proof.
  induction x as [|a x IH]; [done|].
  rewrite app_String. simpl. rewrite IH. apply andb_false_r.
Qed.

Lemma underscore_split_first a1 : ∀ a2 x1 x2,
  no_underscore a1 = true → no_underscore a2 = true →
  (a1 ++ "_" ++ x1 = a2 ++ "_" ++ x2)%string → a1 = a2 ∧ x1 = x2.
Proof.
  induction a1 as [|a a1 IH]; intros [|b a2] x1 x2 H1 H2 Heq;
    rewrite ?app_String, ?app_Empty in Heq; simpl in H1, H2.
  - by injection Heq.
  - injection Heq as <- _. done.
  - injection Heq as -> _. done.
  - injection Heq as -> Heq. apply andb_prop in H1 as [_ H1], H2 as [_ H2].
    destruct (IH _ _ _ H1 H2 Heq) as [-> ->]. done.
Qed.

Lemma underscore_split_last x1 : ∀ x2 y1 y2,
  no_underscore y1 = true → no_underscore y2 = true →
  (x1 ++ "_" ++ y1 = x2 ++ "_" ++ y2)%string → x1 = x2 ∧ y1 = y2.
Proof.
  induction x1 as [|a x1 IH]; intros [|b x2] y1 y2 H1 H2 Heq;
    rewrite ?app_String, ?app_Empty in Heq.
  - by injection Heq.
  - injection Heq as _ Heq. rewrite Heq, no_underscore_app in H1. done.
  - injection Heq as _ Heq. rewrite <- Heq, no_underscore_app in H2. done.
  - injection Heq as -> Heq. destruct (IH _ _ _ H1 H2 Heq) as [-> ->]. done.
Qed.

Section stream_ids.
Variable sha256_hexdigest : string → string.
Variable py_str : value → string.
Variable float_str : Q → string.
Variable encode_error : string → option string.

Lemma stream_id_text_inj c1 c2 spec1 spec2 t1 t2 :
  no_underscore c1 = true → no_underscore c2 = true →
  no_underscore (float_str t1) = true → no_underscore (float_str t2) = true →
  stream_id_text py_str float_str c1 spec1 t1
    = stream_id_text py_str float_str c2 spec2 t2 →
  c1 = c2 ∧ py_str spec1 = py_str spec2 ∧ float_str t1 = float_str t2.
Proof.
  intros Hc1 Hc2 Ht1 Ht2 Heq. unfold stream_id_text in Heq.
  apply underscore_split_first in Heq as [-> Heq]; [|done..].
  apply underscore_split_last in Heq as [-> ->]; done.
Qed.

Lemma handle_message_ids_consistent c fr clock s :
  ids_consistent s →
  ids_consistent
    (exec (_handle_client_message sha256_hexdigest py_str float_str encode_error
             c fr clock) s).
Proof.
  intros Hs k st. unfold exec.
  destruct (handle_message_streams sha256_hexdigest py_str float_str encode_error
              c fr clock s)
    as [-> | [(spec & _ & ->) | (k' & ->)]].
  - apply Hs.
  - destruct (decide (make_stream_id sha256_hexdigest py_str float_str c spec (clock 0)
                      = k)) as [<- | Hne].
    + rewrite lookup_insert_eq. by intros [= <-].
    + rewrite lookup_insert_ne by done. apply Hs.
  - destruct (decide (k' = k)) as [-> | Hne].
    + rewrite lookup_alter_eq. destruct (active_streams s !! k) as [st'|] eqn:E;
        simpl; [|done]. intros [= <-]. simpl. by apply Hs.
    + rewrite lookup_alter_ne by done. apply Hs.
Qed.

(** C5, as the code has it.  The registry is keyed by stream id and every
    record stores its key, so registered streams have pairwise distinct
    ids, and every request keeps it so.  The id is the digest of the text
    [creator_spec_time].  When neither creator nor the rendering of the
    clock reading has an underscore, and the digest does not collide on the
    two texts, two [create_stream] calls get the same id exactly when the
    creator, the rendering of the spec and the rendering of the clock
    reading all agree; with these three equal the ids are equal whatever
    the digest.  A call whose id text can be encoded registers its stream:
    two calls with different ids leave both streams registered, two with
    the same id leave the second record in place of the first.  A call
    whose id text cannot be encoded registers nothing. *)
Theorem stream_ids_follow_digest (s : Server) (c1 c2 : string) (spec1 spec2 : value)
    (t1 u1 v1 w1 t2 u2 v2 w2 : Q) :
  let text1 := stream_id_text py_str float_str c1 spec1 t1 in
  let text2 := stream_id_text py_str float_str c2 spec2 t2 in
  let k1 := make_stream_id sha256_hexdigest py_str float_str c1 spec1 t1 in
  let k2 := make_stream_id sha256_hexdigest py_str float_str c2 spec2 t2 in
  let s1 := exec (_handle_create_stream sha256_hexdigest py_str float_str encode_error
                    c1 spec1 t1 u1 v1 w1) s in
  let s2 := exec (_handle_create_stream sha256_hexdigest py_str float_str encode_error
                    c2 spec2 t2 u2 v2 w2) s1 in
  (∀ c fr clock s0,
     ids_consistent s0 →
     ids_consistent
       (exec (_handle_client_message sha256_hexdigest py_str float_str encode_error
                c fr clock) s0)) ∧
  (no_underscore c1 = true → no_underscore c2 = true →
   no_underscore (float_str t1) = true → no_underscore (float_str t2) = true →
   (sha256_hexdigest text1 = sha256_hexdigest text2 → text1 = text2) →
   (k1 = k2 ↔ c1 = c2 ∧ py_str spec1 = py_str spec2 ∧ float_str t1 = float_str t2)) ∧
  (c1 = c2 → py_str spec1 = py_str spec2 → float_str t1 = float_str t2 → k1 = k2) ∧
  (encode_error text1 = None → encode_error text2 = None →
   (k1 ≠ k2 →
    active_streams s2 !! k1 = Some (mkStream k1 c1 spec1 u1 0 []) ∧
    active_streams s2 !! k2 = Some (mkStream k2 c2 spec2 u2 0 [])) ∧
   (k1 = k2 →
    active_streams s2 = <[k2 := mkStream k2 c2 spec2 u2 0 []]> (active_streams s))) ∧
  (∀ msg, encode_error text1 = Some msg → active_streams s1 = active_streams s).
Proof.
  cbv zeta.
  assert (∀ a a' b b' d d' : string, a = a' → b = b' → d = d' →
            (a ++ "_" ++ b ++ "_" ++ d = a' ++ "_" ++ b' ++ "_" ++ d')%string)
    as Hcongr by (by intros a a' b b' d d' -> -> ->).
  split; [|split; [|split; [|split]]].
  - intros c fr clock s0. apply handle_message_ids_consistent.
  - intros Hc1 Hc2 Ht1 Ht2 Hsha. unfold make_stream_id. split.
    + intros Heq. apply Hsha in Heq. by apply stream_id_text_inj in Heq.
    + intros (Hc & Hs & Ht). f_equal. unfold stream_id_text. by apply Hcongr.
  - intros Hc Hs Ht. unfold make_stream_id. f_equal. unfold stream_id_text.
    by apply Hcongr.
  - intros He1 He2. rewrite !create_stream_streams by done. split.
    + intros Hne. rewrite lookup_insert_ne by done.
      by rewrite !lookup_insert_eq.
    + intros ->. by rewrite insert_insert_eq.
  - intros msg He. unfold exec.
    rewrite (create_stream_unencodable _ _ _ _ _ _ _ _ _ _ _ _ He).
    apply send_keeps_streams.
Qed.
End stream_ids.

Lemma stream_ids_follow_digest_witness :
  make_stream_id sample_digest sample_str sample_float_str "c1" (VDict []) 7
    ≠ make_stream_id sample_digest sample_str sample_float_str "c1" (VDict []) 8 ∧
  make_stream_id sample_digest sample_str sample_float_str "c1" (VDict []) 7
    ≠ make_stream_id sample_digest sample_str sample_float_str "c2" (VDict []) 7.
Proof.
  split.
  - destruct (stream_ids_follow_digest sample_digest sample_str sample_float_str
                sample_encode_error lone_client "c1" "c1" (VDict []) (VDict [])
                7 7 7 7 8 8 8 8) as (_ & Hsame & _).
    intros Heq.
    apply (Hsame eq_refl eq_refl eq_refl eq_refl (λ H, H)) in Heq as (_ & _ & Ht).
    vm_compute in Ht. discriminate.
  - destruct (stream_ids_follow_digest sample_digest sample_str sample_float_str
                sample_encode_error lone_client "c1" "c2" (VDict []) (VDict [])
                7 7 7 7 7 7 7 7) as (_ & Hsame & _).
    intros Heq.
    apply (Hsame eq_refl eq_refl eq_refl eq_refl (λ H, H)) in Heq as (Hc & _).
    discriminate.
Defined.

(** C5 as stated fails: the same client creates a stream with the same spec
    twice while the clock gives the same reading; both calls are answered
    with the same stream id and the registry holds one stream. *)
Lemma same_reading_same_stream_id :
  ∃ k, frames_to "c1" created_twice
       = [msg_connection_established "c1" 0;
          msg_stream_created k (VDict []); msg_stream_created k (VDict [])] ∧
       size (active_streams created_twice) = 1.
Proof. eexists. split; vm_compute; reflexivity. Qed.

(** ** Inbound frames *)

Lemma unsubscribe_raise_state c sid s e :
  outcome (_handle_unsubscription c sid) s = Raise e →
  _handle_unsubscription c sid s = (Raise e, s).
Proof.
  unfold outcome. destruct (od_lookup c (client_subscriptions s)) as [fs|] eqn:E.
  - rewrite (unsubscribe_unfold _ _ _ _ E).
    destruct (index_in_range sid (length fs)) as [[|]|e'].
    + destruct (list_index sid) as [i|e'].
      * rewrite unsubscribe_at_run. intros H.
        match type of H with (_send_to_client ?a ?b ?st).1 = _ =>
          pose proof (send_returns a b st) as Hr end.
        unfold outcome in Hr. congruence.
      * simpl. by intros [= ->].
    + rewrite unsubscribe_all_run. intros H.
      match type of H with (_send_to_client ?a ?b ?st).1 = _ =>
        pose proof (send_returns a b st) as Hr end.
      unfold outcome in Hr. congruence.
    + simpl. by intros [= ->].
  - unfold _handle_unsubscription. unfold_monad. by rewrite E.
Qed.

Section inbound_frames.
Variable sha256_hexdigest : string → string.
Variable py_str : value → string.
Variable float_str : Q → string.
Variable encode_error : string → option string.

Lemma handle_message_returns c fr clock s :
  outcome (_handle_client_message sha256_hexdigest py_str float_str encode_error c fr clock) s
  = Ret tt.
Proof.
  unfold _handle_client_message. unfold_monad.
  match goal with |- (match ?body s with _ => _ end).1 = _ =>
    destruct (body s) as [[[]|e] s1] end; [done|].
  destruct e; apply send_returns.
Qed.

(** C8, as the code has it.  Handling a frame never raises, so the message
    loop of the connection goes on.  For a client in the connection table
    with a working transport: a frame on which [json.loads] raises
    [JSONDecodeError] is answered with [error "Invalid JSON format"], one on
    which it raises anything else (a plain [ValueError], [RecursionError],
    [UnicodeDecodeError]) with the generic [error] that carries the text of
    the exception; an unrecognized type is answered with
    [error "Unknown message type: <type>"]; a fault in the [subscribe]
    handler is answered with [subscription_error], one in the
    [create_stream] handler with [stream_creation_error] and one in the
    [submit_proof] handler with [proof_submission_error], each with the
    text of the exception; a fault in the [unsubscribe] handler, which has
    no [try] of its own, and a frame that is not an object are answered by
    the dispatcher with the generic [error].  In each case the reply is
    the only change of state. *)
Theorem inbound_frame_errors (s : Server) (c : string) (clock : nat → Q) :
  connected_clients s !! c = Some Healthy →
  let handle fr :=
    _handle_client_message sha256_hexdigest py_str float_str encode_error c fr clock in
  (∀ fr s0, outcome (handle fr) s0 = Ret tt) ∧
  (∀ msg, exec (handle (Undecodable (JSONDecodeError msg))) s
          = with_reply s c (msg_error "Invalid JSON format")) ∧
  (∀ e, (∀ msg, e ≠ JSONDecodeError msg) →
        exec (handle (Undecodable e)) s = with_reply s c (msg_error (exn_str e))) ∧
  (∀ ty, exec (handle (Object (Unknown ty))) s
         = with_reply s c (msg_error ("Unknown message type: " ++ py_str ty))) ∧
  (∀ fd e, build_filter fd = Raise e →
           exec (handle (Object (Subscribe fd))) s
           = with_reply s c (msg_subscription_error (exn_str e))) ∧
  (∀ spec msg,
     encode_error (stream_id_text py_str float_str c spec (clock 0)) = Some msg →
     exec (handle (Object (CreateStream spec))) s
     = with_reply s c (msg_stream_creation_error msg)) ∧
  (∀ sid pd pi arch, stream_key s sid = None →
     ∃ e, registered_stream py_str sid s = (Raise e, s) ∧
          exec (handle (Object (SubmitProof sid pd pi arch))) s
          = with_reply s c (msg_proof_submission_error (exn_str e))) ∧
  (∀ sid k pd pi arch msg, stream_key s sid = Some k →
     payload_encode_error py_str encode_error pd pi = Some msg →
     exec (handle (Object (SubmitProof sid pd pi arch))) s
     = with_reply s c (msg_proof_submission_error msg)) ∧
  (∀ sid e, outcome (_handle_unsubscription c sid) s = Raise e →
            exec (handle (Object (Unsubscribe sid))) s
            = with_reply s c (msg_error (exn_str e))) ∧
  (∀ v, exec (handle (NonObject v)) s
        = with_reply s c
            (msg_error ("'" ++ py_typename v ++ "' object has no attribute 'get'"))).
Proof.
  intros Hc. cbv zeta.
  split; [intros fr s0; apply handle_message_returns|].
  unfold exec, _handle_client_message, with_reply.
  split; [|split; [|split; [|split; [|split; [|split; [|split; [|split]]]]]]].
  - intros msg. unfold_monad. by rewrite (send_delivers _ _ _ Hc).
  - intros e He. unfold_monad.
    destruct e; try by rewrite (send_delivers _ _ _ Hc).
    by destruct (He msg).
  - intros ty. unfold_monad. by rewrite (send_delivers _ _ _ Hc).
  - intros fd e Hb. unfold_monad. rewrite (subscribe_raises _ _ _ _ Hb).
    by rewrite (send_delivers _ _ _ Hc).
  - intros spec msg Henc. unfold_monad.
    rewrite (create_stream_unencodable sha256_hexdigest py_str float_str encode_error
               c spec _ _ _ _ s msg Henc).
    by rewrite (send_delivers _ _ _ Hc).
  - intros sid pd pi arch Hk.
    destruct (submit_unregistered sha256_hexdigest py_str encode_error c sid pd pi arch
                                  (clock 0) (clock 1) s Hk) as (e & He & Hrun).
    exists e. split; [done|]. unfold_monad. rewrite Hrun.
    by rewrite (send_delivers _ _ _ Hc).
  - intros sid k pd pi arch msg Hk Henc. unfold_monad.
    rewrite (submit_unencodable sha256_hexdigest py_str encode_error c sid k pd pi arch
               (clock 0) (clock 1) s msg Hk Henc).
    by rewrite (send_delivers _ _ _ Hc).
  - intros sid e Hr. apply unsubscribe_raise_state in Hr. unfold_monad. rewrite Hr.
    destruct e; try by rewrite (send_delivers _ _ _ Hc).
    exfalso. clear Hc. revert Hr.
    destruct (od_lookup c (client_subscriptions s)) as [fs|] eqn:E.
    + rewrite (unsubscribe_unfold _ _ _ _ E).
      destruct sid; simpl; try discriminate;
        repeat (match goal with
                | |- context [if ?b then _ else _] => destruct b
                end; simpl; try discriminate);
        try (rewrite unsubscribe_at_run); try (rewrite unsubscribe_all_run);
        intros H;
        match type of H with _send_to_client ?a ?b ?st = _ =>
          pose proof (send_returns a b st) as Hs; unfold outcome in Hs;
          rewrite H in Hs; discriminate end.
    + unfold _handle_unsubscription. unfold_monad. by rewrite E.
  - intros v. unfold_monad. by rewrite (send_delivers _ _ _ Hc).
Qed.
End inbound_frames.

(** A frame that is not JSON, and a frame whose integer has more digits
    than the interpreter converts. *)
Lemma inbound_frame_errors_witness :
  connected_clients two_clients !! "c2" = Some Healthy ∧
  exec (_handle_client_message sample_digest sample_str sample_float_str
          sample_encode_error "c2"
          (Undecodable (JSONDecodeError "Expecting value")) (still_clock 1)) two_clients
  = with_reply two_clients "c2" (msg_error "Invalid JSON format") ∧
  exec (_handle_client_message sample_digest sample_str sample_float_str
          sample_encode_error "c2"
          (Undecodable (ValueError "Exceeds the limit (4300 digits)")) (still_clock 1))
       two_clients
  = with_reply two_clients "c2" (msg_error "Exceeds the limit (4300 digits)").
Proof.
  assert (connected_clients two_clients !! "c2" = Some Healthy) as Hc
    by (vm_compute; reflexivity).
  split; [exact Hc|].
  destruct (inbound_frame_errors sample_digest sample_str sample_float_str
              sample_encode_error two_clients "c2" (still_clock 1) Hc)
    as (_ & H1 & H2 & _).
  split; [exact (H1 _)|]. apply H2. intros msg. discriminate.
Defined.

(** C8 as stated fails for [unsubscribe]: a [subscription_id] that is a
    string makes the handler raise [TypeError], and the reply is the
    generic [error], not one that names the request. *)
Lemma unsubscribe_fault_gets_generic_error :
  let reply :=
    msg_error "'<=' not supported between instances of 'int' and 'str'" in
  outcome (_handle_unsubscription "c2" (VStr "0")) two_clients
  = Raise (TypeError "'<=' not supported between instances of 'int' and 'str'") ∧
  frames_to "c2"
    (exec (_handle_client_message sample_digest sample_str sample_float_str
             sample_encode_error "c2"
             (Object (Unsubscribe (VStr "0"))) (still_clock 1)) two_clients)
  = frames_to "c2" two_clients ++ [reply] ∧
  msg_type reply = "error".
Proof. cbv zeta. repeat split; vm_compute; reflexivity. Qed.

(** ** Proof submission *)

Section proof_submission.
Variable sha256_hexdigest : string → string.
Variable py_str : value → string.
Variable encode_error : string → option string.

(** What [submit_proof] does to the registry and to the event counter: for
    an unregistered stream id nothing but the error reply, and the same for
    a payload that cannot be encoded; for a registered stream and a payload
    that can, one broadcast, and one more event on that stream if the
    broadcast returns. *)
Lemma submit_proof_effects c sid pd pi arch t1 t2 s :
  let s' := exec (_handle_proof_submission sha256_hexdigest py_str encode_error
                    c sid pd pi arch t1 t2) s in
  match stream_key s sid, payload_encode_error py_str encode_error pd pi with
  | None, _ =>
      ∃ e, s' = exec (_send_to_client c (msg_proof_submission_error (exn_str e))) s
  | Some k, Some msg =>
      s' = exec (_send_to_client c (msg_proof_submission_error msg)) s
  | Some k, None =>
      let broadcast :=
        _emit_event (proof_submitted_event sha256_hexdigest py_str c k pd pi arch t1)
                    t2 in
      total_events (metrics s') = S (total_events (metrics s)) ∧
      match outcome broadcast s with
      | Ret _ =>
          active_streams s' = alter count_event k (active_streams s) ∧
          s' = exec (_send_to_client c (msg_proof_submitted k))
                 (let s1 := exec broadcast s in
                  set_active_streams s1 (alter count_event k (active_streams s1)))
      | Raise e =>
          active_streams s' = active_streams s ∧
          s' = exec (_send_to_client c (msg_proof_submission_error (exn_str e)))
                 (exec broadcast s)
      end
  end.
Proof.
  cbv zeta. destruct (stream_key s sid) as [k|] eqn:Hk.
  - destruct (payload_encode_error py_str encode_error pd pi) as [msg|] eqn:Henc.
    { unfold exec. by rewrite (submit_unencodable _ _ _ _ _ _ _ _ _ _ _ _ _ Hk Henc). }
    pose proof (submit_streams sha256_hexdigest py_str encode_error
                  c sid pd pi arch t1 t2 s) as Hs.
    rewrite Hk, Henc in Hs. unfold exec, outcome in *.
    rewrite (submit_registered _ _ _ _ _ _ _ _ _ _ _ _ Hk Henc) in *.
    pose proof (emit_counts_once
                  (proof_submitted_event sha256_hexdigest py_str c k pd pi arch t1)
                  t2 s) as [_ Hc].
    unfold exec in Hc.
    destruct (_emit_event _ _ s) as [[[]|e] s1]; simpl in *.
    + split; [|done].
      match goal with |- context [_send_to_client ?a ?b ?st] =>
        destruct (send_keeps_registries a b st) as (_ & _ & Hm & _) end.
      unfold exec in Hm. rewrite Hm. exact Hc.
    + split; [|done].
      match goal with |- context [_send_to_client ?a ?b ?st] =>
        destruct (send_keeps_registries a b st) as (_ & _ & Hm & _) end.
      unfold exec in Hm. rewrite Hm. exact Hc.
  - destruct (submit_unregistered sha256_hexdigest py_str encode_error
                c sid pd pi arch t1 t2 s Hk) as (e & _ & Hrun).
    exists e. unfold exec. by rewrite Hrun.
Qed.
End proof_submission.

(** C3.  The requester is itself subscribed with [{}].  Its [submit_proof]
    to its own registered stream counts one event on the stream and
    broadcasts once; the broadcast frame cannot be serialized, the failed
    send takes the requester out of the connection table, and the success
    reply that follows is dropped: the requester is sent nothing. *)
Theorem submit_proof_reply_lost :
  connected_clients subscribed_creator !! "c1" = Some Healthy ∧
  event_count <$> active_streams subscribed_creator !! stream_of_c1 = Some 0 ∧
  event_count <$> active_streams after_submit !! stream_of_c1 = Some 1 ∧
  total_events (metrics after_submit) = S (total_events (metrics subscribed_creator)) ∧
  connected_clients after_submit !! "c1" = None ∧
  frames_to "c1" after_submit = frames_to "c1" subscribed_creator ∧
  msg_proof_submitted stream_of_c1 ∉ frames_to "c1" after_submit.
Proof.
  assert (frames_to "c1" after_submit
          = [msg_connection_established "c1" 0;
             msg_stream_created stream_of_c1 (VDict []);
             msg_subscription_confirmed empty_filter 0]) as Hf
    by (vm_compute; reflexivity).
  repeat split; try (vm_compute; reflexivity).
  rewrite Hf. intros H. repeat (apply elem_of_cons in H as [H | H]; [discriminate|]).
  by apply elem_of_nil in H.
Qed.

(** * Further properties of the code *)

(** ** Event kinds and filters *)

Lemma EventType_call_value t : EventType_call (EventType_value t) = Ret t.
Proof. by destruct t. Qed.

Lemma EventType_call_inv et t : EventType_call et = Ret t → EventType_value t = et.
Proof.
  unfold EventType_call.
  destruct (List.find _ all_event_types) as [t'|] eqn:E; [|done].
  intros [= <-]. apply List.find_some in E as [_ E]. by apply String.eqb_eq in E.
Qed.

(** X1.  [EventType(et)] inverts [.value]: every member is found again from
    its value, and a string that [EventType] accepts is the value of the
    member returned (so the seven values are pairwise distinct). *)
Theorem EventType_roundtrip :
  (∀ t, EventType_call (EventType_value t) = Ret t) ∧
  (∀ et t, EventType_call et = Ret t → EventType_value t = et) ∧
  (∀ t t', EventType_value t = EventType_value t' → t = t').
Proof.
  split; [exact EventType_call_value|]. split; [exact EventType_call_inv|].
  intros t t' H. pose proof (EventType_call_value t) as H1.
  rewrite H, EventType_call_value in H1. by injection H1.
Qed.

Lemma EventType_roundtrip_witness :
  EventType_call "chain_step_added" = Ret CHAIN_STEP_ADDED ∧
  EventType_value CHAIN_STEP_ADDED = "chain_step_added".
Proof.
  assert (EventType_call "chain_step_added" = Ret CHAIN_STEP_ADDED) as H
    by reflexivity.
  split; [exact H|].
  exact (proj1 (proj2 EventType_roundtrip) _ _ H).
Defined.

Lemma mapM_EventType_call_values l ets :
  mapM EventType_call l = Ret ets → map EventType_value ets = l.
Proof.
  revert ets. induction l as [|et l IH]; intros ets; simpl.
  - by intros [= <-].
  - destruct (EventType_call et) as [t|e] eqn:Et; simpl; [|done].
    destruct (mapM EventType_call l) as [ets'|e] eqn:El; simpl; [|done].
    intros [= <-]. simpl. rewrite (IH _ eq_refl).
    by rewrite (EventType_call_inv _ _ Et).
Qed.

Lemma mapM_EventType_call_known l :
  Forall (λ et, ∃ t, EventType_value t = et) l →
  ∃ ets, mapM EventType_call l = Ret ets.
Proof.
  induction 1 as [|et l [t <-] _ [ets IH]]; simpl; [eauto|].
  rewrite EventType_call_value, IH. simpl. eauto.
Qed.

(** X2.  A filter is built exactly when every entry of [event_types] is one
    of the seven values.  The filter built copies the other four fields of
    the request, and its event types are the members whose values are the
    request's entries, in the same order; [event_types] is never left
    unset. *)
Theorem build_filter_roundtrip (fd : FilterData) :
  ((∃ f, build_filter fd = Ret f) ↔
   Forall (λ et, ∃ t, EventType_value t = et) (fd_event_types fd)) ∧
  (∀ f, build_filter fd = Ret f →
     architectures f = fd_architectures fd ∧
     agents f = fd_agents fd ∧
     quality_threshold f = fd_quality_threshold fd ∧
     chain_id f = fd_chain_id fd ∧
     ∃ ets, event_types f = Some ets ∧ map EventType_value ets = fd_event_types fd).
Proof.
  assert (∀ f, build_filter fd = Ret f →
     architectures f = fd_architectures fd ∧
     agents f = fd_agents fd ∧
     quality_threshold f = fd_quality_threshold fd ∧
     chain_id f = fd_chain_id fd ∧
     ∃ ets, event_types f = Some ets ∧ map EventType_value ets = fd_event_types fd)
    as Hcopy.
  { intros f. unfold build_filter.
    destruct (mapM EventType_call (fd_event_types fd)) as [ets|e] eqn:E; simpl; [|done].
    intros [= <-]. simpl. repeat split. exists ets. split; [done|].
    by apply mapM_EventType_call_values. }
  split; [|exact Hcopy]. split.
  - intros [f Hf]. destruct (Hcopy f Hf) as (_ & _ & _ & _ & ets & _ & <-).
    apply Forall_forall. intros et Het. apply list_elem_of_fmap in Het as (t & -> & _).
    eauto.
  - intros Hall. destruct (mapM_EventType_call_known _ Hall) as [ets Hets].
    unfold build_filter. rewrite Hets. simpl. eauto.
Qed.

Lemma build_filter_roundtrip_witness :
  build_filter (mkFilterData (Some ["RWKV"]) None ["proof_submitted"; "task_delegated"]
                             (Some (1 # 2)) None)
  = Ret (mkStreamFilter (Some ["RWKV"]) None (Some [PROOF_SUBMITTED; TASK_DELEGATED])
                        (Some (1 # 2)) None) ∧
  ∃ ets, Some [PROOF_SUBMITTED; TASK_DELEGATED] = Some ets ∧
         map EventType_value ets = ["proof_submitted"; "task_delegated"].
Proof.
  assert (build_filter (mkFilterData (Some ["RWKV"]) None
                          ["proof_submitted"; "task_delegated"] (Some (1 # 2)) None)
          = Ret (mkStreamFilter (Some ["RWKV"]) None
                   (Some [PROOF_SUBMITTED; TASK_DELEGATED]) (Some (1 # 2)) None)) as H
    by reflexivity.
  split; [exact H|].
  destruct (build_filter_roundtrip
              (mkFilterData (Some ["RWKV"]) None ["proof_submitted"; "task_delegated"]
                            (Some (1 # 2)) None)) as [_ Hcopy].
  exact (proj2 (proj2 (proj2 (proj2 (Hcopy _ H))))).
Defined.

Lemma filters_loop_app_hit e fs gs :
  filters_loop e fs = Ret true → filters_loop e (fs ++ gs) = Ret true.
Proof.
  induction fs as [|f fs IH]; simpl; [done|].
  destruct (filter_body e f) as [[|]|ex]; simpl; [done| |done]. exact IH.
Qed.

(** X3.  Once a client has a filter, further filters only widen what it is
    sent: an event its list matches still matches after filters are
    appended, whatever they are (they are not even evaluated).  The first
    filter is different: the empty list matches an event that the list
    [[f]] need not match. *)
Theorem appended_filters_keep_matches (e : StreamEvent) (fs gs : list StreamFilter) :
  fs ≠ [] →
  _event_matches_filters e fs = Ret true →
  _event_matches_filters e (fs ++ gs) = Ret true.
Proof.
  intros Hne H. destruct fs as [|f fs]; [done|].
  simpl in *. change (filters_loop e ((f :: fs) ++ gs) = Ret true).
  by apply filters_loop_app_hit.
Qed.

Lemma appended_filters_keep_matches_witness :
  [empty_filter] ≠ [] ∧
  _event_matches_filters text_quality_event [empty_filter] = Ret true ∧
  _event_matches_filters text_quality_event ([empty_filter] ++ [threshold_filter 1])
  = Ret true.
Proof.
  assert ([empty_filter] ≠ []) as H1 by discriminate.
  assert (_event_matches_filters text_quality_event [empty_filter] = Ret true) as H2
    by reflexivity.
  split; [exact H1|]. split; [exact H2|].
  exact (appended_filters_keep_matches text_quality_event [empty_filter]
           [threshold_filter 1] H1 H2).
Defined.

Lemma single_filter_rejects e f :
  quality_is_number e → ¬ satisfies e f → _event_matches_filters e [f] = Ret false.
Proof.
  intros Hnum Hf. destruct (event_matches_filters_returns e [f] Hnum) as (b & -> & Hb).
  destruct b; [|done]. destruct (proj1 Hb eq_refl) as [? | (g & Hg & Hsat)]; [done|].
  apply list_elem_of_singleton in Hg as ->. done.
Qed.

Lemma no_score_is_number e : data e !! "quality_score" = None → quality_is_number e.
Proof. intros H. exists 0%Q. unfold quality_score. by rewrite H. Qed.

Lemma verification_complete_no_score agent receipt arch gas t :
  data (verification_complete_event agent receipt arch gas t) !! "quality_score" = None.
Proof. simpl. by rewrite !lookup_insert_ne, lookup_empty. Qed.

Lemma chain_step_added_no_score chain agent arch step t :
  data (chain_step_added_event chain agent arch step t) !! "quality_score" = None.
Proof. simpl. by rewrite !lookup_insert_ne, lookup_empty. Qed.

Lemma agent_registered_no_score agent archs t :
  data (agent_registered_event agent archs t) !! "quality_score" = None.
Proof. simpl. by rewrite !lookup_insert_ne, lookup_empty. Qed.

Lemma stream_created_no_score c k spec t :
  data (stream_created_event c k spec t) !! "quality_score" = None.
Proof. simpl. by rewrite !lookup_insert_ne, lookup_empty. Qed.

Section broker_events.
Variable sha256_hexdigest : string → string.
Variable py_str : value → string.
Variable encode_error : string → option string.

Lemma proof_submitted_no_score c k pd pi arch t :
  data (proof_submitted_event sha256_hexdigest py_str c k pd pi arch t)
    !! "quality_score" = None.
Proof. simpl. by rewrite !lookup_insert_ne, lookup_empty. Qed.

(** X4.  Filters on fields an event kind does not carry reject it.  An
    [agent_registered] event has ["architectures"] but no ["architecture"],
    and a [stream_created] event has neither an architecture nor an agent or
    submitter (only a ["creator"]): a filter that declares architectures
    rejects both, and one that declares agents rejects stream creations.
    Only [chain_step_added] events carry a ["chain_id"]: a filter that
    declares a chain id rejects the four other kinds the broker builds. *)
Theorem filters_on_absent_fields_reject (f : StreamFilter) :
  (∀ archs, declares_list (architectures f) archs →
     (∀ agent l t,
        _event_matches_filters (agent_registered_event agent l t) [f] = Ret false) ∧
     (∀ c k spec t,
        _event_matches_filters (stream_created_event c k spec t) [f] = Ret false)) ∧
  (∀ ags, declares_list (agents f) ags →
     ∀ c k spec t,
       _event_matches_filters (stream_created_event c k spec t) [f] = Ret false) ∧
  (∀ cid, declares_chain_id f cid →
     (∀ agent receipt arch gas t,
        _event_matches_filters (verification_complete_event agent receipt arch gas t) [f]
        = Ret false) ∧
     (∀ agent l t,
        _event_matches_filters (agent_registered_event agent l t) [f] = Ret false) ∧
     (∀ c k spec t,
        _event_matches_filters (stream_created_event c k spec t) [f] = Ret false) ∧
     (∀ c k pd pi arch t,
        _event_matches_filters
          (proof_submitted_event sha256_hexdigest py_str c k pd pi arch t) [f]
        = Ret false)).
Proof.
  split; [|split].
  - intros archs Hd. split.
    + intros agent l t. apply single_filter_rejects.
      { apply no_score_is_number, agent_registered_no_score. }
      intros [_ H _ _ _]. destruct (H _ Hd) as (a & Ha & _). simpl in Ha.
      rewrite !lookup_insert_ne, lookup_empty in Ha by done. done.
    + intros c k spec t. apply single_filter_rejects.
      { apply no_score_is_number, stream_created_no_score. }
      intros [_ H _ _ _]. destruct (H _ Hd) as (a & Ha & _). simpl in Ha.
      rewrite !lookup_insert_ne, lookup_empty in Ha by done. done.
  - intros ags Hd c k spec t. apply single_filter_rejects.
    { apply no_score_is_number, stream_created_no_score. }
    intros [_ _ H _ _]. destruct (H _ Hd) as (a & Ha & _).
    unfold agent_identity, dict_get in Ha. simpl in Ha.
    rewrite !lookup_insert_ne, lookup_empty in Ha by done. done.
  - intros cid Hd. repeat split.
    + intros agent receipt arch gas t. apply single_filter_rejects.
      { apply no_score_is_number, verification_complete_no_score. }
      intros [_ _ _ _ H]. specialize (H _ Hd). simpl in H.
      rewrite !lookup_insert_ne, lookup_empty in H by done. done.
    + intros agent l t. apply single_filter_rejects.
      { apply no_score_is_number, agent_registered_no_score. }
      intros [_ _ _ _ H]. specialize (H _ Hd). simpl in H.
      rewrite !lookup_insert_ne, lookup_empty in H by done. done.
    + intros c k spec t. apply single_filter_rejects.
      { apply no_score_is_number, stream_created_no_score. }
      intros [_ _ _ _ H]. specialize (H _ Hd). simpl in H.
      rewrite !lookup_insert_ne, lookup_empty in H by done. done.
    + intros c k pd pi arch t. apply single_filter_rejects.
      { apply no_score_is_number, proof_submitted_no_score. }
      intros [_ _ _ _ H]. specialize (H _ Hd). simpl in H.
      rewrite !lookup_insert_ne, lookup_empty in H by done. done.
Qed.

(** X5.  The agent of a proof submission is its submitter: a client that
    filters on a non-empty list of agents, and on nothing else, is a
    subscriber of a [proof_submitted] event exactly when the submitting
    client's id is in its list. *)
Theorem proof_submission_agent_is_submitter (ags : list string) (c k : string)
    (pd pi : value) (arch : option value) (t : Q) :
  ags ≠ [] →
  _event_matches_filters
    (proof_submitted_event sha256_hexdigest py_str c k pd pi arch t) [agents_filter ags]
  = Ret (bool_decide (c ∈ ags)).
Proof.
  intros Hne. destruct ags as [|a ags]; [done|].
  unfold _event_matches_filters, filters_loop, filter_body.
  unfold skip_event_type, skip_architecture, skip_agent, skip_quality, skip_chain_id.
  simpl. unfold py_or, dict_get. simpl.
  rewrite lookup_insert_ne, !lookup_insert_ne, lookup_empty by done. simpl.
  rewrite lookup_insert_eq. simpl.
  by destruct (bool_decide (c ∈ a :: ags)).
Qed.

(** X6.  No event the broker builds carries a ["quality_score"], and the
    score of such an event counts as 0: a filter that declares a positive
    quality threshold rejects every one of them. *)
Theorem positive_threshold_rejects_broker_events (f : StreamFilter) (t : Q) :
  declares_threshold f t → (0 < t)%Q →
  (∀ e, data e !! "quality_score" = None → _event_matches_filters e [f] = Ret false) ∧
  (∀ agent receipt arch gas now,
     data (verification_complete_event agent receipt arch gas now) !! "quality_score"
     = None) ∧
  (∀ chain agent arch step now,
     data (chain_step_added_event chain agent arch step now) !! "quality_score" = None) ∧
  (∀ agent archs now,
     data (agent_registered_event agent archs now) !! "quality_score" = None) ∧
  (∀ c k spec now, data (stream_created_event c k spec now) !! "quality_score" = None) ∧
  (∀ c k pd pi arch now,
     data (proof_submitted_event sha256_hexdigest py_str c k pd pi arch now)
       !! "quality_score" = None).
Proof.
  intros Hd Ht. split.
  - intros e He. apply single_filter_rejects; [by apply no_score_is_number|].
    intros [_ _ _ H _]. destruct (H _ Hd) as (q & Hq & Hle).
    unfold quality_score in Hq. rewrite He in Hq. injection Hq as <-.
    by apply Qle_not_lt in Hle.
  - split; [exact verification_complete_no_score|].
    split; [exact chain_step_added_no_score|].
    split; [exact agent_registered_no_score|].
    split; [exact stream_created_no_score | exact proof_submitted_no_score].
Qed.
End broker_events.

Lemma filters_on_absent_fields_reject_witness :
  declares_list (architectures rwkv_filter) ["RWKV"] ∧
  _event_matches_filters (agent_registered_event "agent-1" ["RWKV"] 0) [rwkv_filter]
  = Ret false.
Proof.
  assert (declares_list (architectures rwkv_filter) ["RWKV"]) as H by (split; done).
  split; [exact H|].
  destruct (filters_on_absent_fields_reject sample_digest sample_str rwkv_filter)
    as [Harch _].
  exact (proj1 (Harch _ H) "agent-1" ["RWKV"] 0%Q).
Defined.

Lemma proof_submission_agent_is_submitter_witness :
  ["c1"; "c9"] ≠ [] ∧
  _event_matches_filters
    (proof_submitted_event sample_digest sample_str "c1" "S1" (VStr "proof") (VList [])
                           None 0) [agents_filter ["c1"; "c9"]]
  = Ret (bool_decide ("c1" ∈ ["c1"; "c9"])).
Proof.
  assert (["c1"; "c9"] ≠ ([] : list string)) as H by discriminate.
  split; [exact H|].
  exact (proof_submission_agent_is_submitter sample_digest sample_str ["c1"; "c9"]
           "c1" "S1" (VStr "proof") (VList []) None 0%Q H).
Defined.

Lemma positive_threshold_rejects_broker_events_witness :
  declares_threshold (threshold_filter (1 # 2)) (1 # 2) ∧ (0 < 1 # 2)%Q ∧
  _event_matches_filters mamba_event [threshold_filter (1 # 2)] = Ret false.
Proof.
  assert (declares_threshold (threshold_filter (1 # 2)) (1 # 2)) as H1
    by (split; [reflexivity | discriminate]).
  assert (0 < 1 # 2)%Q as H2 by reflexivity.
  split; [exact H1|]. split; [exact H2|].
  destruct (positive_threshold_rejects_broker_events sample_digest sample_str
              (threshold_filter (1 # 2)) (1 # 2) H1 H2) as [Hrej _].
  apply Hrej. reflexivity.
Defined.

(** X7.  A score that is not a number makes the comparison with a declared
    threshold raise [TypeError]; whether the caller sees it depends on the
    order of the filters, because the loop stops at the first filter that
    matches. *)
Theorem non_numeric_score_raises (e : StreamEvent) (v : value) (t : Q)
    (fs : list StreamFilter) :
  data e !! "quality_score" = Some v → number_of v = None → ¬ (t == 0)%Q →
  let err := TypeError ("'<' not supported between instances of '"
                        ++ py_typename v ++ "' and 'float'") in
  _event_matches_filters e (threshold_filter t :: fs) = Raise err ∧
  _event_matches_filters e (empty_filter :: threshold_filter t :: fs) = Ret true.
Proof.
  intros Hv Hn Ht. cbv zeta. split; [|reflexivity].
  unfold _event_matches_filters, filters_loop, filter_body.
  unfold skip_event_type, skip_architecture, skip_agent, skip_quality. simpl.
  destruct (Qeq_bool t 0) eqn:E; [by apply Qeq_bool_iff in E|].
  unfold dict_get_default. rewrite Hv.
  destruct v; simpl in *; done.
Qed.

Lemma non_numeric_score_raises_witness :
  data text_quality_event !! "quality_score" = Some (VStr "high") ∧
  _event_matches_filters text_quality_event [threshold_filter (1 # 2)]
  = Raise (TypeError "'<' not supported between instances of 'str' and 'float'").
Proof.
  assert (data text_quality_event !! "quality_score" = Some (VStr "high")) as H1
    by reflexivity.
  assert (number_of (VStr "high") = None) as H2 by reflexivity.
  assert (¬ (1 # 2 == 0)%Q) as H3 by discriminate.
  split; [exact H1|].
  exact (proj1 (non_numeric_score_raises text_quality_event (VStr "high") (1 # 2) []
                  H1 H2 H3)).
Defined.

Lemma emit_loop_prefix_returns e m pre :
  matching_returns e pre →
  ∀ post s,
    emit_loop e m (pre ++ post) s
    = emit_loop e m post
        (foldl (λ s' c, exec (_send_to_client c m) s') s (targets_among e pre)).
Proof.
  induction 1 as [|[c fs] pre [b Hb] _ IH]; intros post s; [done|].
  simpl app. rewrite emit_loop_step. unfold targets_among. simpl.
  unfold matches_true at 1. simpl in Hb. rewrite Hb.
  destruct b; simpl; apply IH.
Qed.

(** X8.  A [TypeError] raised while matching aborts the broadcast where it
    happens: the counters have been incremented, the clients earlier in the
    registry have been handled, and no client from the failing entry on is
    looked at. *)
Theorem emit_aborts_on_matching_error (s : Server) (e : StreamEvent) (now : Q)
    (pre post : list (string * list StreamFilter)) (c : string)
    (fs : list StreamFilter) (ex : exn) :
  client_subscriptions s = pre ++ (c, fs) :: post →
  matching_returns e pre →
  _event_matches_filters e fs = Raise ex →
  _emit_event e now s
  = (Raise ex,
     send_all (msg_stream_event e now) (targets_among e pre) (bump_event_counters s)).
Proof.
  intros Hs Hpre Hex. rewrite emit_event_unfold, Hs.
  rewrite (emit_loop_prefix_returns _ _ _ Hpre), emit_loop_step. by rewrite Hex.
Qed.

Lemma emit_aborts_on_matching_error_witness :
  client_subscriptions threshold_subscriber
  = [("c2", [empty_filter])]
    ++ ("c3", [mkStreamFilter None None (Some []) (Some (1 # 2)) None]) :: [] ∧
  outcome (_emit_event text_quality_event 1) threshold_subscriber
  = Raise (TypeError "'<' not supported between instances of 'str' and 'float'") ∧
  total_events (metrics (exec (_emit_event text_quality_event 1) threshold_subscriber))
  = 1.
Proof.
  assert (client_subscriptions threshold_subscriber
          = [("c2", [empty_filter])]
            ++ ("c3", [mkStreamFilter None None (Some []) (Some (1 # 2)) None]) :: [])
    as H1 by (vm_compute; reflexivity).
  assert (matching_returns text_quality_event [("c2", [empty_filter])]) as H2
    by (repeat constructor; exists true; reflexivity).
  assert (_event_matches_filters text_quality_event
            [mkStreamFilter None None (Some []) (Some (1 # 2)) None]
          = Raise (TypeError "'<' not supported between instances of 'str' and 'float'"))
    as H3 by reflexivity.
  pose proof (emit_aborts_on_matching_error threshold_subscriber text_quality_event 1
                _ _ _ _ _ H1 H2 H3) as H.
  split; [exact H1|]. unfold outcome, exec. rewrite H. split; [reflexivity|].
  vm_compute. reflexivity.
Defined.

(** ** Relations kept by the handlers *)

Section preserving.
Variable R : Server → Server → Prop.
Hypothesis R_refl : ∀ s, R s s.
Hypothesis R_trans : ∀ s1 s2 s3, R s1 s2 → R s2 s3 → R s1 s3.

Lemma preserves_ret {A} (a : A) : preserves R (mret a).
Proof. intros s. apply R_refl. Qed.

Lemma preserves_raise {A} e : preserves R (raise e : M A).
Proof. intros s. apply R_refl. Qed.

Lemma preserves_lift {A} (r : res A) : preserves R (lift r).
Proof. intros s. apply R_refl. Qed.

Lemma preserves_get : preserves R get_state.
Proof. intros s. apply R_refl. Qed.

Lemma preserves_modify f : (∀ s, R s (f s)) → preserves R (modify f).
Proof. intros H s. apply H. Qed.

Lemma preserves_bind {A B} (m : M A) (k : A → M B) :
  preserves R m → (∀ a, preserves R (k a)) → preserves R (m ≫= k).
Proof.
  intros Hm Hk s. unfold_monad. specialize (Hm s).
  destruct (m s) as [[a|e] s1]; simpl in *; [|done].
  eapply R_trans; [exact Hm | apply Hk].
Qed.

Lemma preserves_mtry {A} (m : M A) (h : exn → M A) :
  preserves R m → (∀ e, preserves R (h e)) → preserves R (mtry m h).
Proof.
  intros Hm Hh s. unfold_monad. specialize (Hm s).
  destruct (m s) as [[a|e] s1]; simpl in *; [done|].
  eapply R_trans; [exact Hm | apply Hh].
Qed.

Lemma preserves_mfinally {A} (m : M A) (fin : M unit) :
  preserves R m → preserves R fin → preserves R (mfinally m fin).
Proof.
  intros Hm Hf s. unfold mfinally. specialize (Hm s).
  destruct (m s) as [r s1]. specialize (Hf s1).
  destruct (fin s1) as [[[]|e] s2]; simpl in *; eapply R_trans; eauto.
Qed.

Lemma preserves_emit_loop e m items :
  (∀ c, preserves R (_send_to_client c m)) → preserves R (emit_loop e m items).
Proof.
  intros Hs. induction items as [|[c fs] items IH]; intros s; [apply R_refl|].
  rewrite emit_loop_step.
  destruct (_event_matches_filters e fs) as [[|]|ex]; [|apply IH|apply R_refl].
  eapply R_trans; [apply (Hs c s) | apply IH].
Qed.

Hypothesis R_event : ∀ c e t, preserves R (_send_to_client c (msg_stream_event e t)).
Hypothesis R_bump : ∀ s, R s (bump_event_counters s).

Lemma preserves_emit e now : preserves R (_emit_event e now).
Proof.
  intros s. rewrite emit_event_unfold.
  eapply R_trans; [apply R_bump|]. apply preserves_emit_loop. intros c. apply R_event.
Qed.

Variable client_id : string.
Hypothesis R_reply : ∀ m, preserves R (_send_to_client client_id m).
Hypothesis R_subscriptions :
  ∀ s f, R s (set_client_subscriptions s
                (od_alter f [] client_id (client_subscriptions s))).

Lemma preserves_subscription fd : preserves R (_handle_subscription client_id fd).
Proof.
  apply preserves_mtry; [|intros e; apply R_reply].
  apply preserves_bind; [apply preserves_lift|]. intros f.
  apply preserves_bind; [apply preserves_modify; intros s; apply R_subscriptions|].
  intros _. apply preserves_bind; [apply preserves_get|]. intros s. apply R_reply.
Qed.

Lemma preserves_unsubscription sid : preserves R (_handle_unsubscription client_id sid).
Proof.
  apply preserves_bind; [apply preserves_get|]. intros s.
  destruct (od_lookup client_id (client_subscriptions s)); [|apply preserves_ret].
  apply preserves_bind; [apply preserves_lift|]. intros [|].
  - apply preserves_bind; [apply preserves_lift|]. intros i.
    apply preserves_bind; [apply preserves_modify; intros s'; apply R_subscriptions|].
    intros _. apply R_reply.
  - apply preserves_bind; [apply preserves_modify; intros s'; apply R_subscriptions|].
    intros _. apply R_reply.
Qed.

Hypothesis R_insert :
  ∀ s k st, R s (set_active_streams s (<[k := st]> (active_streams s))).
Hypothesis R_count :
  ∀ s k, R s (set_active_streams s (alter count_event k (active_streams s))).
Hypothesis R_refresh : ∀ s, R s (refresh_streams_metric s).

Variable sha256_hexdigest : string → string.
Variable py_str : value → string.
Variable float_str : Q → string.
Variable encode_error : string → option string.

Lemma preserves_create_stream spec t1 t2 t3 t4 :
  preserves R (_handle_create_stream sha256_hexdigest py_str float_str encode_error
                 client_id spec t1 t2 t3 t4).
Proof.
  apply preserves_mtry; [|intros e; apply R_reply].
  apply preserves_bind; [apply preserves_lift|].
  intros _. apply preserves_bind; [apply preserves_modify; intros s; apply R_insert|].
  intros _. apply preserves_bind; [apply preserves_modify, R_refresh|].
  intros _. apply preserves_bind; [apply R_reply|].
  intros _. apply preserves_emit.
Qed.

Lemma preserves_proof_submission sid pd pi arch t1 t2 :
  preserves R (_handle_proof_submission sha256_hexdigest py_str encode_error
                 client_id sid pd pi arch t1 t2).
Proof.
  apply preserves_mtry; [|intros e; apply R_reply].
  apply preserves_bind.
  { apply preserves_bind; [apply preserves_get|]. intros s.
    destruct sid; try apply preserves_raise.
    destruct (active_streams s !! _); [apply preserves_ret | apply preserves_raise]. }
  intros k. apply preserves_bind; [apply preserves_lift|].
  intros _. apply preserves_bind; [apply preserves_lift|].
  intros _. apply preserves_bind; [apply preserves_emit|].
  intros _. apply preserves_bind; [apply preserves_modify; intros s; apply R_count|].
  intros _. apply R_reply.
Qed.

Lemma preserves_handle_message fr clock :
  preserves R (_handle_client_message sha256_hexdigest py_str float_str encode_error
                 client_id fr clock).
Proof.
  apply preserves_mtry; [|intros e; destruct e; apply R_reply].
  destruct fr as [e|v|[fd|sid|spec|sid pd pi arch| |ty]].
  - apply preserves_raise.
  - apply preserves_raise.
  - apply preserves_subscription.
  - apply preserves_unsubscription.
  - apply preserves_create_stream.
  - apply preserves_proof_submission.
  - apply R_reply.
  - apply R_reply.
Qed.

Lemma preserves_message_loop messages :
  preserves R (message_loop sha256_hexdigest py_str float_str encode_error
                 client_id messages).
Proof.
  induction messages as [|[fr clock] messages IH]; [apply preserves_ret|].
  simpl. apply preserves_bind; [apply preserves_handle_message|]. intros _. exact IH.
Qed.
End preserving.

(** ** What a request leaves alone *)

Lemma od_lookup_alter_other {V} (f : V → V) (d : V) c c' (l : list (string * V)) :
  c' ≠ c → od_lookup c' (od_alter f d c l) = od_lookup c' l.
Proof.
  intros Hne. induction l as [|[k v] l IH]; simpl.
  - destruct (String.eqb c c') eqn:E; [|done].
    apply String.eqb_eq in E. by subst.
  - destruct (String.eqb k c) eqn:E; simpl.
    + apply String.eqb_eq in E. subst k.
      destruct (String.eqb c c') eqn:E'; [|done].
      apply String.eqb_eq in E'. by subst.
    + by rewrite IH.
Qed.

Lemma od_lookup_delete_other {V} c c' (l : list (string * V)) :
  c' ≠ c → od_lookup c' (od_delete c l) = od_lookup c' l.
Proof.
  intros Hne. induction l as [|[k v] l IH]; simpl; [done|].
  destruct (String.eqb k c) eqn:E; simpl.
  - apply String.eqb_eq in E. subst k.
    destruct (String.eqb c c') eqn:E'; [|done].
    apply String.eqb_eq in E'. by subst.
  - by rewrite IH.
Qed.

Lemma send_keeps_subscriptions_of c m s :
  client_subscriptions (_send_to_client c m s).2 = client_subscriptions s.
Proof. by destruct (send_keeps_registries c m s) as (H & _). Qed.

(** Splits a goal [preserves R m] along the structure of [m]. *)
Ltac preserve_steps :=
  repeat first
    [ assumption
    | match goal with
      | |- ∀ _, preserves _ _ => intro
      | |- preserves _ (mret _) => apply preserves_ret
      | |- preserves _ (raise _) => apply preserves_raise
      | |- preserves _ (lift _) => apply preserves_lift
      | |- preserves _ get_state => apply preserves_get
      | |- preserves _ (_ ≫= _) => apply preserves_bind
      | |- preserves _ (mtry _ _) => apply preserves_mtry
      | |- preserves _ (mfinally _ _) => apply preserves_mfinally
      | |- preserves _ (modify _) => apply preserves_modify
      end ].

Section isolation.
Variable sha256_hexdigest : string → string.
Variable py_str : value → string.
Variable float_str : Q → string.
Variable encode_error : string → option string.

(** X9.  A connection's filter list is changed only by that connection's own
    requests, and by its own teardown: handling a frame of client [c], or a
    whole connection of [c] from accept to cleanup, leaves the registry
    entry of every other client as it was. *)
Theorem requests_touch_own_filters_only (c c' : string) (s : Server) :
  c' ≠ c →
  (∀ fr clock,
     od_lookup c' (client_subscriptions
                     (exec (_handle_client_message sha256_hexdigest py_str float_str encode_error
                              c fr clock) s))
     = od_lookup c' (client_subscriptions s)) ∧
  (∀ ws messages,
     od_lookup c' (client_subscriptions
                     (exec (_handle_client sha256_hexdigest py_str float_str encode_error
                              c ws messages) s))
     = od_lookup c' (client_subscriptions s)).
Proof.
  intros Hne.
  set (R := λ s s' : Server,
         od_lookup c' (client_subscriptions s') = od_lookup c' (client_subscriptions s)).
  assert (∀ s, R s s) as Hrefl by done.
  assert (∀ s1 s2 s3, R s1 s2 → R s2 s3 → R s1 s3) as Htrans
    by (unfold R; intros ??? H1 H2; by rewrite H2).
  assert (∀ x m, preserves R (_send_to_client x m)) as Hsend
    by (intros x m s0; unfold R; by rewrite send_keeps_subscriptions_of).
  assert (∀ s0 f, R s0 (set_client_subscriptions s0
                          (od_alter f [] c (client_subscriptions s0)))) as Hsubs
    by (intros s0 f; unfold R; simpl; by apply od_lookup_alter_other).
  split.
  - intros fr clock.
    assert (preserves R (_handle_client_message sha256_hexdigest py_str float_str encode_error
                           c fr clock)) as H
      by (apply preserves_handle_message; done).
    exact (H s).
  - intros ws messages.
    cut (preserves R (_handle_client sha256_hexdigest py_str float_str encode_error
          c ws messages));
      [intros H; exact (H s)|].
    unfold _handle_client, _handle_client_enter, _handle_client_finally.
    preserve_steps; try apply Hsend; try (apply preserves_message_loop; done).
    intros s0. unfold R. simpl. by apply od_lookup_delete_other.
Qed.
End isolation.

Lemma requests_touch_own_filters_only_witness :
  "c2" ≠ "c1" ∧
  od_lookup "c2"
    (client_subscriptions
       (exec (_handle_client sample_digest sample_str sample_float_str
        sample_encode_error
             "c1" Healthy
                [(Object (Subscribe empty_filter_data), still_clock 1);
                 (Object (Unsubscribe VNone), still_clock 2)]) two_clients))
  = od_lookup "c2" (client_subscriptions two_clients).
Proof.
  assert ("c2" ≠ "c1") as H by discriminate.
  split; [exact H|].
  exact (proj2 (requests_touch_own_filters_only sample_digest sample_str
                  sample_float_str sample_encode_error "c1" "c2" two_clients H) Healthy _).
Defined.

Lemma send_event_keeps_wire c e t s :
  wire (_send_to_client c (msg_stream_event e t) s).2 = wire s.
Proof.
  unfold _send_to_client. destruct (connected_clients s !! c); [|done].
  by simpl.
Qed.

Lemma send_wire c m s :
  wire (_send_to_client c m s).2 = wire s ∨
  (json_dumps_ok m = true ∧ wire (_send_to_client c m s).2 = wire s ++ [(c, m)]).
Proof.
  unfold _send_to_client. destruct (connected_clients s !! c) as [ws|]; [|by left].
  destruct (json_dumps_ok m) eqn:Ej; simpl; [|by left].
  destruct (send_ok ws); simpl; [by right | by left].
Qed.

Lemma send_connected_subseteq c m s :
  connected_clients (_send_to_client c m s).2 ⊆ connected_clients s.
Proof.
  unfold _send_to_client. destruct (connected_clients s !! c) as [ws|]; [|done].
  destruct (json_dumps_ok m && send_ok ws); simpl; [done|]. apply delete_subseteq.
Qed.

Section never.
Variable sha256_hexdigest : string → string.
Variable py_str : value → string.
Variable float_str : Q → string.
Variable encode_error : string → option string.

Lemma create_stream_returns c spec t1 t2 t3 t4 s :
  outcome (_handle_create_stream sha256_hexdigest py_str float_str encode_error
             c spec t1 t2 t3 t4) s
  = Ret tt.
Proof. apply create_stream_outcome. Qed.

Lemma proof_submission_returns c sid pd pi arch t1 t2 s :
  outcome (_handle_proof_submission sha256_hexdigest py_str encode_error
             c sid pd pi arch t1 t2) s
  = Ret tt.
Proof. apply submit_proof_returns. Qed.

Lemma handle_message_create c spec clock s :
  _handle_client_message sha256_hexdigest py_str float_str encode_error c
    (Object (CreateStream spec)) clock s
  = _handle_create_stream sha256_hexdigest py_str float_str encode_error c spec
      (clock 0) (clock 1) (clock 2) (clock 3) s.
Proof.
  unfold _handle_client_message. unfold_monad.
  pose proof (create_stream_returns c spec (clock 0) (clock 1) (clock 2) (clock 3) s)
    as H. unfold outcome in H.
  destruct (_handle_create_stream _ _ _ _ _ _ _ _ _ _ s) as [r s1]. simpl in H.
  by subst r.
Qed.

Lemma handle_message_submit c sid pd pi arch clock s :
  _handle_client_message sha256_hexdigest py_str float_str encode_error c
    (Object (SubmitProof sid pd pi arch)) clock s
  = _handle_proof_submission sha256_hexdigest py_str encode_error c sid pd pi arch
      (clock 0) (clock 1) s.
Proof.
  unfold _handle_client_message. unfold_monad.
  pose proof (proof_submission_returns c sid pd pi arch (clock 0) (clock 1) s) as H.
  unfold outcome in H.
  destruct (_handle_proof_submission _ _ _ _ _ _ _ _ _ _ s) as [r s1]. simpl in H.
  by subst r.
Qed.

(** X10.  Streams are never removed: a stream id that is registered stays
    registered through every frame handled for any client and through a
    whole connection, including the connection of its creator and that
    connection's cleanup. *)
Theorem streams_are_never_removed (c k : string) (s : Server) :
  is_Some (active_streams s !! k) →
  (∀ fr clock,
     is_Some (active_streams
                (exec (_handle_client_message sha256_hexdigest py_str float_str encode_error
                         c fr clock) s) !! k)) ∧
  (∀ ws messages,
     is_Some (active_streams
                (exec (_handle_client sha256_hexdigest py_str float_str encode_error
                         c ws messages) s) !! k)).
Proof.
  intros Hk.
  set (R := λ s s' : Server,
         is_Some (active_streams s !! k) → is_Some (active_streams s' !! k)).
  assert (∀ s, R s s) as Hrefl by (intros s0; unfold R; auto).
  assert (∀ s1 s2 s3, R s1 s2 → R s2 s3 → R s1 s3) as Htrans
    by (unfold R; intros ??? H1 H2 H; auto).
  assert (∀ x m, preserves R (_send_to_client x m)) as Hsend
    by (intros x m s0; unfold R; by rewrite send_keeps_streams).
  assert (∀ s0 k' st, R s0 (set_active_streams s0 (<[k' := st]> (active_streams s0))))
    as Hins.
  { intros s0 k' st H. simpl. destruct (decide (k' = k)) as [->|Hne].
    - rewrite lookup_insert_eq. eauto.
    - by rewrite lookup_insert_ne. }
  assert (∀ s0 k', R s0 (set_active_streams s0 (alter count_event k' (active_streams s0))))
    as Hcount.
  { intros s0 k' H. simpl. destruct (decide (k' = k)) as [->|Hne].
    - rewrite lookup_alter_eq. destruct H as [st ->]. simpl. eauto.
    - by rewrite lookup_alter_ne. }
  split.
  - intros fr clock.
    assert (preserves R (_handle_client_message sha256_hexdigest py_str float_str encode_error
                           c fr clock)) as H
      by (apply preserves_handle_message; first [assumption | intros; apply Hsend | intros; apply Hrefl | intros; unfold R; simpl; by auto]).
    exact (H s Hk).
  - intros ws messages.
    cut (preserves R (_handle_client sha256_hexdigest py_str float_str encode_error
          c ws messages));
      [intros H; exact (H s Hk)|].
    unfold _handle_client, _handle_client_enter, _handle_client_finally.
    preserve_steps; try apply Hsend;
      try (apply preserves_message_loop; first [assumption | intros; apply Hsend | intros; apply Hrefl | intros; unfold R; simpl; by auto]);
      intros s0; unfold R; simpl; by auto.
Qed.

(** X11.  Handling a frame never adds a connection to the connection table:
    the table afterwards is contained in the table before (it is smaller
    when a send failed). *)
Theorem requests_never_add_connections (c : string) (fr : frame) (clock : nat → Q)
    (s : Server) :
  connected_clients
    (exec (_handle_client_message sha256_hexdigest py_str float_str encode_error c fr clock) s)
  ⊆ connected_clients s.
Proof.
  set (R := λ s s' : Server, connected_clients s' ⊆ connected_clients s).
  assert (∀ s, R s s) as Hrefl by (intros s0; unfold R; auto).
  assert (∀ s1 s2 s3, R s1 s2 → R s2 s3 → R s1 s3) as Htrans
    by (unfold R; intros ??? H1 H2; by etrans).
  assert (∀ x m, preserves R (_send_to_client x m)) as Hsend
    by (intros x m s0; apply send_connected_subseteq).
  assert (preserves R (_handle_client_message sha256_hexdigest py_str float_str encode_error
                         c fr clock)) as H
    by (apply preserves_handle_message; first [assumption | intros; apply Hsend | intros; apply Hrefl | intros; unfold R; simpl; by auto]).
  exact (H s).
Qed.

(** X12.  Whatever handling a frame of client [c] puts on the wire goes to
    [c] itself, and none of it is a [stream_event]: the only frames a
    request addresses to other clients are the broadcast frames, and
    [json.dumps] refuses every one of them. *)
Theorem requests_only_reply_to_requester (c : string) (fr : frame) (clock : nat → Q)
    (s : Server) :
  ∃ replies,
    wire (exec (_handle_client_message sha256_hexdigest py_str float_str encode_error
          c fr clock) s)
    = wire s ++ map (pair c) replies ∧
    Forall (λ m, ∀ e t, m ≠ msg_stream_event e t) replies.
Proof.
  set (R := λ s s' : Server,
         ∃ replies, wire s' = wire s ++ map (pair c) replies ∧
                    Forall (λ m, ∀ e t, m ≠ msg_stream_event e t) replies).
  assert (∀ s, R s s) as Hrefl
    by (intros s0; exists []; split; [by rewrite app_nil_r | constructor]).
  assert (∀ s1 s2 s3, R s1 s2 → R s2 s3 → R s1 s3) as Htrans.
  { intros s1 s2 s3 (r1 & H1 & F1) (r2 & H2 & F2). exists (r1 ++ r2). split.
    - by rewrite H2, H1, map_app, app_assoc.
    - by apply Forall_app. }
  assert (∀ m, preserves R (_send_to_client c m)) as Hreply.
  { intros m s0. destruct (send_wire c m s0) as [H | [Hj H]].
    - exists []. split; [by rewrite app_nil_r | constructor].
    - exists [m]. split; [done|]. constructor; [|constructor].
      intros e t ->. done. }
  assert (∀ x e t, preserves R (_send_to_client x (msg_stream_event e t))) as Hevent.
  { intros x e t s0. exists []. split; [|constructor].
    by rewrite send_event_keeps_wire, app_nil_r. }
  assert (preserves R (_handle_client_message sha256_hexdigest py_str float_str encode_error
                         c fr clock)) as H.
  { apply preserves_handle_message;
      first [assumption | intros; apply Hreply | intros; apply Hevent
            | intros s0; intros; exists []; split; [by rewrite app_nil_r | constructor]]. }
  exact (H s).
Qed.

(** X13.  A client that is out of the connection table (a send to it has
    failed) stays out and is sent nothing while its frames are handled, but
    the frames still take effect: its [create_stream] registers the stream
    whenever the id text can be encoded (the record is stored before the
    reply and the broadcast). *)
Theorem dropped_client_still_acts (c : string) (s : Server) :
  connected_clients s !! c = None →
  (∀ fr clock,
     view c (exec (_handle_client_message sha256_hexdigest py_str float_str encode_error
                     c fr clock) s) = view c s) ∧
  (∀ spec clock,
     encode_error (stream_id_text py_str float_str c spec (clock 0)) = None →
     let k := make_stream_id sha256_hexdigest py_str float_str c spec (clock 0) in
     active_streams
       (exec (_handle_client_message sha256_hexdigest py_str float_str encode_error
                c (Object (CreateStream spec)) clock) s) !! k
     = Some (mkStream k c spec (clock 1) 0 [])).
Proof.
  intros Hc. split.
  - set (R := λ s s' : Server,
           connected_clients s !! c = None → view c s' = view c s).
    assert (∀ s, R s s) as Hrefl by (intros s0; unfold R; auto).
    assert (∀ s1 s2 s3, R s1 s2 → R s2 s3 → R s1 s3) as Htrans.
    { unfold R. intros s1 s2 s3 H1 H2 H. specialize (H1 H).
      rewrite H2; [done|]. unfold view in H1. injection H1 as H1 _. by rewrite H1. }
    assert (∀ x m, preserves R (_send_to_client x m)) as Hsend.
    { intros x m s0 H. destruct (decide (x = c)) as [->|Hne].
      - by rewrite send_unknown.
      - by apply send_other_view. }
    intros fr clock.
    assert (preserves R (_handle_client_message sha256_hexdigest py_str float_str encode_error
                           c fr clock)) as H
      by (apply preserves_handle_message; first [assumption | intros; apply Hsend | intros; apply Hrefl | intros; unfold R; simpl; by auto]).
    exact (H s Hc).
  - intros spec clock Henc. cbv zeta. unfold exec.
    rewrite handle_message_create.
    pose proof (create_stream_streams sha256_hexdigest py_str float_str encode_error
                  c spec (clock 0) (clock 1) (clock 2) (clock 3) s Henc) as Hs.
    cbv zeta in Hs. unfold exec in Hs. rewrite Hs. apply lookup_insert_eq.
Qed.
End never.

Lemma od_alter_key_in {V} (f : V → V) (d : V) c (l : list (string * V)) k :
  k ∈ map fst (od_alter f d c l) → k = c ∨ k ∈ map fst l.
Proof.
  induction l as [|[k' v] l IH]; simpl; intros Hk.
  - apply list_elem_of_singleton in Hk. by left.
  - destruct (String.eqb k' c); simpl in *; [by right|].
    apply elem_of_cons in Hk as [-> | Hk]; [right; apply elem_of_cons; by left|].
    destruct (IH Hk) as [-> | ?]; [by left|]. right. apply elem_of_cons. by right.
Qed.

Lemma od_alter_keys {V} (f : V → V) (d : V) c (l : list (string * V)) :
  NoDup (map fst l) → NoDup (map fst (od_alter f d c l)).
Proof.
  induction l as [|[k v] l IH]; simpl; intros Hnd.
  - apply NoDup_singleton.
  - apply NoDup_cons in Hnd as [Hk Hnd].
    destruct (String.eqb k c) eqn:E; simpl.
    + by apply NoDup_cons.
    + apply NoDup_cons. split; [|by apply IH].
      intros Hk'. apply String.eqb_neq in E.
      destruct (od_alter_key_in _ _ _ _ _ Hk') as [-> | ?]; done.
Qed.

Lemma od_delete_key_in {V} c (l : list (string * V)) k :
  k ∈ map fst (od_delete c l) → k ∈ map fst l.
Proof.
  induction l as [|[k' v] l IH]; simpl; [done|].
  destruct (String.eqb k' c); simpl; intros Hk.
  - apply elem_of_cons. by right.
  - apply elem_of_cons in Hk as [-> | Hk]; apply elem_of_cons; [by left|].
    right. by apply IH.
Qed.

Lemma od_delete_keys {V} c (l : list (string * V)) :
  NoDup (map fst l) → NoDup (map fst (od_delete c l)).
Proof.
  induction l as [|[k v] l IH]; simpl; intros Hnd; [done|].
  apply NoDup_cons in Hnd as [Hk Hnd].
  destruct (String.eqb k c); [done|]. simpl. apply NoDup_cons. split; [|by apply IH].
  intros Hin. by apply Hk, (od_delete_key_in c).
Qed.

Lemma mtry_swallow_state (body : M unit) s :
  mtry body (λ _, mret tt) s = (Ret tt, (body s).2).
Proof. unfold_monad. by destruct (body s) as [[[]|e] s1]. Qed.

Section whole_connection.
Variable sha256_hexdigest : string → string.
Variable py_str : value → string.
Variable float_str : Q → string.
Variable encode_error : string → option string.

Lemma message_loop_keeps_keys c messages :
  preserves (λ s s', registry_keys_distinct s → registry_keys_distinct s')
            (message_loop sha256_hexdigest py_str float_str encode_error c messages).
Proof.
  assert (∀ x m, preserves (λ s s', registry_keys_distinct s → registry_keys_distinct s')
                           (_send_to_client x m)) as Hsend.
  { intros x m s0 H. unfold registry_keys_distinct in *.
    by rewrite send_keeps_subscriptions_of. }
  apply preserves_message_loop;
    first [ by (intros; apply Hsend)
          | by (intros; unfold registry_keys_distinct in *; simpl; auto)
          | idtac ].
  intros s0 f H. unfold registry_keys_distinct in *. simpl. by apply od_alter_keys.
Qed.

(** X14.  A connection leaves no trace in the two tables: after
    [_handle_client] has run for a client, from accept over any frames to
    the cleanup, the client is in neither the connection table nor the
    subscription registry, the [connected_clients] metric equals the size of
    the connection table, and the coroutine returns whatever happened in
    between. *)
Theorem connection_leaves_no_entry (c : string) (ws : websocket)
    (messages : list (frame * (nat → Q))) (s : Server) :
  registry_keys_distinct s →
  let s' := exec (_handle_client sha256_hexdigest py_str float_str encode_error
        c ws messages) s in
  outcome (_handle_client sha256_hexdigest py_str float_str encode_error
        c ws messages) s = Ret tt ∧
  connected_clients s' !! c = None ∧
  od_lookup c (client_subscriptions s') = None ∧
  m_connected_clients (metrics s') = size (connected_clients s') ∧
  registry_keys_distinct s'.
Proof.
  intros Hnd. cbv zeta. unfold outcome, exec, _handle_client, mfinally.
  rewrite mtry_swallow_state.
  set (s1 := ((_handle_client_enter c ws
               ≫= λ _, message_loop sha256_hexdigest py_str float_str encode_error
                     c messages) s).2).
  assert (registry_keys_distinct s1) as Hnd1.
  { unfold s1. unfold_monad.
    pose proof (connect_keeps_subscriptions c ws s) as Hsub. unfold exec in Hsub.
    destruct (_handle_client_enter c ws s) as [[[]|e] s0]; simpl in *.
    - apply (message_loop_keeps_keys c messages s0).
      unfold registry_keys_distinct. by rewrite Hsub.
    - unfold registry_keys_distinct. by rewrite Hsub. }
  destruct (cleanup_removes_both c s1) as [Hc Hl]. unfold exec in Hc, Hl.
  change (_handle_client_finally c s1)
    with (Ret tt, (_handle_client_finally c s1).2).
  simpl. split; [done|]. split; [exact Hc|]. split; [by apply Hl|]. split; [done|].
  unfold registry_keys_distinct in *. simpl. by apply od_delete_keys.
Qed.
End whole_connection.

(** ** Counters and broadcasts *)

Lemma send_keeps_counters c m s :
  total_events (metrics (_send_to_client c m s).2) = total_events (metrics s) ∧
  _events_since_last_update (_send_to_client c m s).2 = _events_since_last_update s.
Proof.
  destruct (send_keeps_registries c m s) as (_ & _ & H1 & H2 & _).
  unfold exec in *. by rewrite H1, H2.
Qed.

Section counting.
Variable sha256_hexdigest : string → string.
Variable py_str : value → string.
Variable float_str : Q → string.
Variable encode_error : string → option string.

(** X15.  The two event counters count the calls of [_emit_event], one by
    one: handling a frame adds to [total_events] and to the since-last-tick
    counter exactly the number of broadcasts the frame starts, which is one
    for a [create_stream] whose id text can be encoded, one for a
    [submit_proof] to a registered stream whose payload can be encoded, and
    zero for every other frame (a rejected request included).  The counters
    are raised on entry to [_emit_event], before the registry is walked. *)
Theorem requests_count_broadcasts (c : string) (fr : frame) (clock : nat → Q)
    (s : Server) :
  let s' := exec (_handle_client_message sha256_hexdigest py_str float_str encode_error
                    c fr clock) s in
  let n := broadcasts py_str float_str encode_error c clock s fr in
  total_events (metrics s') = total_events (metrics s) + n ∧
  _events_since_last_update s' = _events_since_last_update s + n.
Proof.
  cbv zeta.
  set (R := λ s s' : Server,
         total_events (metrics s') = total_events (metrics s) ∧
         _events_since_last_update s' = _events_since_last_update s).
  assert (∀ s, R s s) as Hrefl by (intros s0; by split).
  assert (∀ s1 s2 s3, R s1 s2 → R s2 s3 → R s1 s3) as Htrans
    by (unfold R; intros ??? [H1 H2] [H3 H4]; split; congruence).
  assert (∀ x m, preserves R (_send_to_client x m)) as Hsend
    by (intros x m s0; apply send_keeps_counters).
  assert (∀ body, preserves R body →
            R s ((mtry body
                    (λ e, match e with
                          | JSONDecodeError _ =>
                              _send_to_client c (msg_error "Invalid JSON format")
                          | _ => _send_to_client c (msg_error (exn_str e))
                          end)) s).2) as Hquiet.
  { intros body Hb. apply (preserves_mtry R Htrans); [done|].
    intros e. destruct e; apply Hsend. }
  assert (∀ body, preserves R body →
            total_events (metrics ((mtry body
                    (λ e, match e with
                          | JSONDecodeError _ =>
                              _send_to_client c (msg_error "Invalid JSON format")
                          | _ => _send_to_client c (msg_error (exn_str e))
                          end)) s).2) = total_events (metrics s) + 0 ∧
            _events_since_last_update ((mtry body
                    (λ e, match e with
                          | JSONDecodeError _ =>
                              _send_to_client c (msg_error "Invalid JSON format")
                          | _ => _send_to_client c (msg_error (exn_str e))
                          end)) s).2 = _events_since_last_update s + 0) as Hzero.
  { intros body Hb. rewrite !Nat.add_0_r. by apply Hquiet. }
  unfold exec.
  destruct fr as [e|v|[fd|sid|spec|sid pd pi arch| |ty]]; simpl broadcasts.
  - apply Hzero. by apply preserves_raise.
  - apply Hzero. by apply preserves_raise.
  - apply Hzero. apply preserves_subscription; try assumption.
    + intros m. apply Hsend.
    + intros s0 f. by split.
  - apply Hzero. apply preserves_unsubscription; try assumption.
    + intros m. apply Hsend.
    + intros s0 f. by split.
  - rewrite handle_message_create.
    destruct (encode_error (stream_id_text py_str float_str c spec (clock 0)))
      as [msg|] eqn:Henc.
    { rewrite (create_stream_unencodable _ _ _ _ _ _ _ _ _ _ _ _ Henc).
      destruct (send_keeps_counters c (msg_stream_creation_error msg) s) as [-> ->].
      lia. }
    rewrite (create_stream_run _ _ _ _ _ _ _ _ _ _ _ Henc). cbv zeta.
    match goal with |- context [mtry (_emit_event ?ev ?t) _ ?st] =>
      set (s0 := st);
      assert (total_events (metrics s0) = total_events (metrics s) ∧
              _events_since_last_update s0 = _events_since_last_update s) as [H3 H4];
      [ unfold s0, exec;
        match goal with |- context [_send_to_client ?a ?b ?st'] =>
          destruct (send_keeps_counters a b st') as [-> ->] end; done |];
      destruct (emit_counts_once ev t s0) as [H1 H2]
    end.
    clearbody s0. unfold exec, mtry in *.
    destruct (_emit_event _ _ s0) as [[[]|ex] s1]; simpl in *.
    + rewrite H1, H2, H3, H4. lia.
    + destruct (send_keeps_counters c (msg_stream_creation_error (exn_str ex)) s1)
        as [-> ->].
      rewrite H1, H2, H3, H4. lia.
  - rewrite handle_message_submit.
    destruct (stream_key s sid) as [k|] eqn:Hk.
    + destruct (payload_encode_error py_str encode_error pd pi) as [msg|] eqn:Henc.
      { rewrite (submit_unencodable _ _ _ _ _ _ _ _ _ _ _ _ _ Hk Henc).
        destruct (send_keeps_counters c (msg_proof_submission_error msg) s) as [-> ->].
        lia. }
      rewrite (submit_registered _ _ _ _ _ _ _ _ _ _ _ _ Hk Henc).
      destruct (emit_counts_once
                  (proof_submitted_event sha256_hexdigest py_str c k pd pi arch (clock 0))
                  (clock 1) s) as [H1 H2].
      unfold exec in *.
      destruct (_emit_event _ _ s) as [[[]|ex] s1]; simpl in *;
        match goal with |- context [_send_to_client ?a ?b ?st] =>
          destruct (send_keeps_counters a b st) as [-> ->] end;
        simpl; rewrite H1, H2; lia.
    + destruct (submit_unregistered sha256_hexdigest py_str encode_error c sid pd pi arch
                  (clock 0) (clock 1) s Hk) as (e & _ & ->).
      destruct (send_keeps_counters c (msg_proof_submission_error (exn_str e)) s)
        as [-> ->]. lia.
  - apply Hzero. apply Hsend.
  - apply Hzero. apply Hsend.
Qed.
End counting.




(** ** Subscribing and unsubscribing *)


Lemma subscribe_registry_entry c fd f s :
  build_filter fd = Ret f →
  od_lookup c (client_subscriptions (_handle_subscription c fd s).2)
  = Some (subscriptions_of s c ++ [f]).
Proof.
  intros Hb. rewrite (subscribe_ok _ _ _ _ Hb), send_keeps_subscriptions_of. simpl.
  by rewrite od_lookup_alter.
Qed.




(** X18.  Subscribing and then unsubscribing with the index that was
    confirmed gives the client back the filter list it had. *)
Theorem subscribe_then_unsubscribe_restores (s : Server) (c : string)
    (fd : FilterData) (f : StreamFilter) :
  build_filter fd = Ret f →
  let n := length (subscriptions_of s c) in
  let s1 := exec (_handle_subscription c fd) s in
  let s2 := exec (_handle_unsubscription c (VInt (Z.of_nat n))) s1 in
  subscriptions_of s1 c = subscriptions_of s c ++ [f] ∧
  subscriptions_of s2 c = subscriptions_of s c.
Proof.
  intros Hb. cbv zeta. unfold exec.
  pose proof (subscribe_registry_entry c fd f s Hb) as Hl.
  split; [unfold subscriptions_of at 1; by rewrite Hl|].
  rewrite (unsubscribe_unfold _ _ _ _ Hl).
  rewrite index_in_range_nat by (rewrite length_app; simpl; lia).
  simpl. rewrite Nat2Z.id, unsubscribe_at_run.
  unfold subscriptions_of at 1. rewrite send_keeps_subscriptions_of. simpl.
  rewrite od_lookup_alter, Hl.
  by rewrite delete_middle, app_nil_r.
Qed.

Lemma subscribe_then_unsubscribe_restores_witness :
  build_filter empty_filter_data = Ret empty_filter ∧
  subscriptions_of
    (exec (_handle_unsubscription "c2" (VInt 1))
       (exec (_handle_subscription "c2" empty_filter_data) two_clients)) "c2"
  = subscriptions_of two_clients "c2".
Proof.
  assert (build_filter empty_filter_data = Ret empty_filter) as H by reflexivity.
  split; [exact H|].
  exact (proj2 (subscribe_then_unsubscribe_restores two_clients "c2" _ _ H)).
Defined.

(** X19.  Subscription indices are positions, and removing one moves the
    later ones: after [unsubscribe] with an index [i] in range, the filters
    before [i] keep their index and each filter after [i] is found one index
    lower. *)
Theorem unsubscribe_shifts_later_indices (s : Server) (c : string)
    (filters : list StreamFilter) (i : nat) :
  od_lookup c (client_subscriptions s) = Some filters →
  i < length filters →
  let s' := exec (_handle_unsubscription c (VInt (Z.of_nat i))) s in
  length (subscriptions_of s' c) = pred (length filters) ∧
  (∀ j : nat, (j < i)%nat → subscriptions_of s' c !! j = filters !! j) ∧
  (∀ j : nat, (i ≤ j)%nat → subscriptions_of s' c !! j = filters !! S j).
Proof.
  intros Hl Hi. cbv zeta. unfold exec.
  rewrite (unsubscribe_unfold _ _ _ _ Hl), (index_in_range_nat _ _ Hi). simpl.
  rewrite Nat2Z.id, unsubscribe_at_run.
  unfold subscriptions_of. rewrite send_keeps_subscriptions_of. simpl.
  rewrite od_lookup_alter, Hl. split; [|split].
  - rewrite length_delete; [lia|]. by apply lookup_lt_is_Some.
  - intros j Hj. by apply list_lookup_delete_lt.
  - intros j Hj. by apply list_lookup_delete_ge.
Qed.

Lemma unsubscribe_shifts_later_indices_witness :
  od_lookup "c2" (client_subscriptions
                    (exec (_handle_subscription "c2"
                             (mkFilterData (Some ["RWKV"]) None [] None None))
                          two_clients))
  = Some [empty_filter; rwkv_filter] ∧
  0 < length [empty_filter; rwkv_filter] ∧
  subscriptions_of
    (exec (_handle_unsubscription "c2" (VInt (Z.of_nat 0)))
       (exec (_handle_subscription "c2"
                (mkFilterData (Some ["RWKV"]) None [] None None)) two_clients)) "c2"
    !! 0
  = [empty_filter; rwkv_filter] !! 1.
Proof.
  assert (od_lookup "c2" (client_subscriptions
                    (exec (_handle_subscription "c2"
                             (mkFilterData (Some ["RWKV"]) None [] None None))
                          two_clients))
          = Some [empty_filter; rwkv_filter]) as H1 by (vm_compute; reflexivity).
  assert (0 < length [empty_filter; rwkv_filter]) as H2 by (simpl; lia).
  split; [exact H1|]. split; [exact H2|].
  destruct (unsubscribe_shifts_later_indices _ "c2" _ 0 H1 H2) as (_ & _ & H).
  exact (H 0 (Nat.le_refl 0)).
Defined.



(** X21.  Indices that are not integers.  A float inside [0, len) passes
    the range test and then fails as a list index: the handler raises
    [TypeError] and nothing has changed.  A float outside the range clears
    the whole list, as an integer out of range does.  A boolean is an
    integer: [true] removes the filter at index 1. *)
Theorem unsubscribe_with_odd_indices (s : Server) (c : string)
    (filters : list StreamFilter) :
  od_lookup c (client_subscriptions s) = Some filters →
  (∀ q, Qle_bool 0 q && Qltb q (inject_Z (Z.of_nat (length filters))) = true →
        _handle_unsubscription c (VFloat q) s
        = (Raise (TypeError "list indices must be integers or slices, not float"), s)) ∧
  (∀ q, Qle_bool 0 q && Qltb q (inject_Z (Z.of_nat (length filters))) = false →
        subscriptions_of (exec (_handle_unsubscription c (VFloat q)) s) c = []) ∧
  (1 < length filters →
   subscriptions_of (exec (_handle_unsubscription c (VBool true)) s) c
   = delete 1 filters).
Proof.
  intros Hl. split; [|split].
  - intros q Hq. rewrite (unsubscribe_unfold _ _ _ _ Hl). simpl. by rewrite Hq.
  - intros q Hq. unfold exec. rewrite (unsubscribe_unfold _ _ _ _ Hl). simpl.
    rewrite Hq, unsubscribe_all_run.
    unfold subscriptions_of. rewrite send_keeps_subscriptions_of. simpl.
    by rewrite od_lookup_alter.
  - intros Hlen. unfold exec. rewrite (unsubscribe_unfold _ _ _ _ Hl). simpl.
    assert ((1 <? Z.of_nat (length filters))%Z = true) as -> by (apply Z.ltb_lt; lia).
    simpl. rewrite unsubscribe_at_run.
    unfold subscriptions_of. rewrite send_keeps_subscriptions_of. simpl.
    by rewrite od_lookup_alter, Hl.
Qed.

Lemma unsubscribe_with_odd_indices_witness :
  od_lookup "c2" (client_subscriptions two_clients) = Some [empty_filter] ∧
  _handle_unsubscription "c2" (VFloat (1 # 2)) two_clients
  = (Raise (TypeError "list indices must be integers or slices, not float"),
     two_clients).
Proof.
  assert (od_lookup "c2" (client_subscriptions two_clients) = Some [empty_filter]) as H1
    by (vm_compute; reflexivity).
  split; [exact H1|].
  destruct (unsubscribe_with_odd_indices two_clients "c2" _ H1) as (H & _).
  apply H. reflexivity.
Defined.

(** ** Accepting a connection *)

(** X22.  Accepting a new client.  With a working transport the client
    enters the connection table, is greeted with the number of registered
    streams, and the [connected_clients] metric is the size of the table.
    With a transport on which the greeting fails the client is removed
    again, the table is what it was, and the metric, set before the send,
    counts one client too many. *)
Theorem accept_registers_connection (s : Server) (c : string) :
  connected_clients s !! c = None →
  (let s' := exec (_handle_client_enter c Healthy) s in
   connected_clients s' = <[c := Healthy]> (connected_clients s) ∧
   wire s' = wire s ++ [(c, msg_connection_established c (size (active_streams s)))] ∧
   m_connected_clients (metrics s') = size (connected_clients s')) ∧
  (let s' := exec (_handle_client_enter c Broken) s in
   connected_clients s' = connected_clients s ∧
   wire s' = wire s ∧
   m_connected_clients (metrics s') = S (size (connected_clients s'))).
Proof.
  intros Hc. cbv zeta. unfold exec, _handle_client_enter. unfold_monad.
  unfold _send_to_client. simpl. rewrite !lookup_insert_eq. simpl.
  split; split; [done| |by apply delete_insert_id|]; split; try done.
  by rewrite delete_insert_id, map_size_insert_None.
Qed.

Lemma accept_registers_connection_witness :
  connected_clients two_clients !! "c7" = None ∧
  m_connected_clients (metrics (exec (_handle_client_enter "c7" Broken) two_clients))
  = 3 ∧
  size (connected_clients (exec (_handle_client_enter "c7" Broken) two_clients)) = 2.
Proof.
  assert (connected_clients two_clients !! "c7" = None) as H by (vm_compute; reflexivity).
  split; [exact H|].
  destruct (accept_registers_connection two_clients "c7" H) as [_ (Hcc & _ & Hm)].
  cbv zeta in *. rewrite Hm, Hcc. split; vm_compute; reflexivity.
Defined.

(** ** Metrics *)

(** X23.  A tick touches only the rate, the time of the last tick and the
    since-last-tick counter: the tables, the wire, [total_events] and the
    [connected_clients] and [active_streams] metrics are as before (they are
    not refreshed by the tick).  The rate describes the last interval only:
    after two ticks in a row with the clock moving forward it is 0, whatever
    it was. *)
Theorem tick_keeps_the_rest (s : Server) (t1 t2 : Q) :
  let s' := _update_metrics_loop_body t1 s in
  connected_clients s' = connected_clients s ∧
  client_subscriptions s' = client_subscriptions s ∧
  active_streams s' = active_streams s ∧
  wire s' = wire s ∧
  total_events (metrics s') = total_events (metrics s) ∧
  m_connected_clients (metrics s') = m_connected_clients (metrics s) ∧
  m_active_streams (metrics s') = m_active_streams (metrics s) ∧
  ((t1 < t2)%Q →
   (events_per_second (metrics (_update_metrics_loop_body t2 s')) == 0)%Q).
Proof.
  cbv zeta. unfold _update_metrics_loop_body. simpl.
  repeat (split; [by destruct (Qltb 0 (t1 - _last_metrics_update s))|]).
  intros Ht. unfold Qltb at 1.
  destruct (Qle_bool (t2 - t1) 0) eqn:E.
  - apply Qle_bool_iff in E. apply Qlt_minus_iff in Ht. unfold Qminus in E.
    exfalso. exact (Qlt_not_le _ _ Ht E).
  - simpl. unfold Qdiv. by rewrite Qmult_0_l.
Qed.

Lemma tick_keeps_the_rest_witness :
  (5 < 10)%Q ∧
  (events_per_second
     (metrics (_update_metrics_loop_body 10 (_update_metrics_loop_body 5 (ten_events 0))))
   == 0)%Q.
Proof.
  assert (5 < 10)%Q as H by reflexivity.
  split; [exact H|].
  exact (proj2 (proj2 (proj2 (proj2 (proj2 (proj2 (proj2
           (tick_keeps_the_rest (ten_events 0) 5 10))))))) H).
Defined.

(** ** Stream registry *)

Section submissions.
Variable sha256_hexdigest : string → string.
Variable py_str : value → string.
Variable encode_error : string → option string.

(** X24.  A proof submitted to a registered stream, with a payload that
    can be encoded and a broadcast that returns, changes one field of one
    record: that stream's [event_count] goes up by one, its other fields and
    all other streams stay as they are.  A submission with an id that is not
    registered, not a string or not hashable, or with a payload that cannot
    be encoded, leaves the registry alone. *)
Theorem submission_counts_on_its_stream (c : string) (sid pd pi : value)
    (arch : option value) (t1 t2 : Q) (s : Server) :
  let s' := exec (_handle_proof_submission sha256_hexdigest py_str encode_error
                    c sid pd pi arch t1 t2) s in
  (∀ k, stream_key s sid = Some k →
     payload_encode_error py_str encode_error pd pi = None →
     outcome (_emit_event (proof_submitted_event sha256_hexdigest py_str
                             c k pd pi arch t1) t2) s = Ret tt →
     ∃ st, active_streams s !! k = Some st ∧
           active_streams s' !! k
           = Some (mkStream (id st) (creator st) (spec st) (created_at st)
                            (S (event_count st)) (subscribers st)) ∧
           ∀ k', k' ≠ k → active_streams s' !! k' = active_streams s !! k') ∧
  (stream_key s sid = None → active_streams s' = active_streams s) ∧
  (∀ msg, payload_encode_error py_str encode_error pd pi = Some msg →
          active_streams s' = active_streams s).
Proof.
  cbv zeta. unfold exec. rewrite submit_streams. split; [|split].
  - intros k Hk Henc Hret. rewrite Hk, Henc, Hret. unfold stream_key in Hk.
    destruct sid; try done. destruct (active_streams s !! s0) as [st|] eqn:E; [|done].
    injection Hk as <-. exists st. split; [done|]. split.
    + by rewrite lookup_alter_eq, E.
    + intros k' Hne. by rewrite lookup_alter_ne.
  - by intros ->.
  - intros msg ->. by destruct (stream_key s sid).
Qed.
End submissions.

Lemma submission_counts_on_its_stream_witness :
  stream_key subscribed_creator (VStr stream_of_c1) = Some stream_of_c1 ∧
  event_count <$> active_streams after_submit !! stream_of_c1 = Some 1.
Proof.
  assert (stream_key subscribed_creator (VStr stream_of_c1) = Some stream_of_c1) as H
    by (vm_compute; reflexivity).
  split; [exact H|].
  destruct (submission_counts_on_its_stream sample_digest sample_str sample_encode_error
              "c1" (VStr stream_of_c1) (VStr "proof") (VList [VInt 1; VInt 2])
              (Some (VStr "RWKV")) 9 9 subscribed_creator) as [Hreg _].
  destruct (Hreg _ H) as (st & Hst & Hafter & _);
    [vm_compute; reflexivity | vm_compute; reflexivity |].
  unfold after_submit. rewrite Hafter. simpl. f_equal.
  assert (event_count <$> active_streams subscribed_creator !! stream_of_c1 = Some 0)
    as H0 by (vm_compute; reflexivity).
  rewrite Hst in H0. simpl in H0. by injection H0 as ->.
Defined.

(** ** Notification helpers *)

(** X25.  The three notification helpers raise only what filter matching
    raises on an entry of the registry: each ends as the walk of the
    registry for its event ends.  Whether it returns or raises, it counts
    one event and leaves the subscription registry and the stream registry
    as they are.  A filter on a chain id alone selects, among chain steps,
    exactly those of that chain. *)
Theorem notification_helpers_effects (s : Server) (t_event t_emit : Q) :
  let ok (m : M unit) (e : StreamEvent) :=
    outcome m s = emit_outcome e (client_subscriptions s) ∧
    total_events (metrics (exec m s)) = S (total_events (metrics s)) ∧
    client_subscriptions (exec m s) = client_subscriptions s ∧
    active_streams (exec m s) = active_streams s in
  (∀ agent receipt arch gas,
     ok (broadcast_verification_complete agent receipt arch gas t_event t_emit)
        (verification_complete_event agent receipt arch gas t_event)) ∧
  (∀ chain step agent arch,
     ok (broadcast_chain_step_added chain step agent arch t_event t_emit)
        (chain_step_added_event chain agent arch step t_event)) ∧
  (∀ agent archs,
     ok (broadcast_agent_registered agent archs t_event t_emit)
        (agent_registered_event agent archs t_event)) ∧
  (∀ ex e, emit_outcome e (client_subscriptions s) = Raise ex →
     ∃ c filters, (c, filters) ∈ client_subscriptions s ∧
                  _event_matches_filters e filters = Raise ex) ∧
  (∀ chain cid agent arch step,
     cid ≠ "" →
     _event_matches_filters (chain_step_added_event chain agent arch step t_event)
                            [chain_filter cid]
     = Ret (bool_decide (chain = cid))).
Proof.
  cbv zeta.
  assert (∀ e, outcome (_emit_event e t_emit) s
               = emit_outcome e (client_subscriptions s) ∧
            total_events (metrics (exec (_emit_event e t_emit) s))
            = S (total_events (metrics s)) ∧
            client_subscriptions (exec (_emit_event e t_emit) s)
            = client_subscriptions s ∧
            active_streams (exec (_emit_event e t_emit) s) = active_streams s) as Hok.
  { intros e. split; [unfold outcome; by rewrite emit_event_run|].
    split; [apply emit_counts_once|].
    destruct (emit_loop_keeps e (msg_stream_event e t_emit) (client_subscriptions s)
                (bump_event_counters s)) as (H1 & H2 & _).
    unfold exec in *. by rewrite emit_event_unfold. }
  split; [|split; [|split; [|split]]].
  - intros. apply Hok.
  - intros. apply Hok.
  - intros. apply Hok.
  - intros ex e. apply emit_outcome_raise.
  - intros chain cid agent arch step Hcid.
    unfold _event_matches_filters, filters_loop, filter_body.
    unfold skip_event_type, skip_architecture, skip_agent, skip_quality, skip_chain_id.
    simpl. destruct (String.eqb cid "") eqn:E; [by apply String.eqb_eq in E|].
    unfold dict_get. simpl. rewrite lookup_insert_eq. simpl.
    destruct (String.eqb chain cid) eqn:E'.
    + apply String.eqb_eq in E'. by rewrite bool_decide_eq_true_2.
    + apply String.eqb_neq in E'. by rewrite bool_decide_eq_false_2.
Qed.

Lemma notification_helpers_effects_witness :
  "chain-1" ≠ "" ∧
  _event_matches_filters (chain_step_added_event "chain-1" "agent-1" "RWKV" 0 0)
                         [chain_filter "chain-1"]
  = Ret (bool_decide ("chain-1" = "chain-1")).
Proof.
  assert ("chain-1" ≠ "") as H by discriminate.
  split; [exact H|].
  destruct (notification_helpers_effects two_clients 0 0) as (_ & _ & _ & _ & Hm).
  exact (Hm "chain-1" "chain-1" "agent-1" "RWKV" 0%Z H).
Defined.

(** ** The client *)

(** X26.  The client's requests need a live connection.  When the client is
    not connected or has no socket, [subscribe], [submit_proof] and
    [create_stream] all raise [ConnectionError("Not connected to server")];
    this is the case for every request made after [disconnect]. *)
Theorem client_requests_need_connection (cl : Client) :
  let refused (r : client_res Client) :=
    r = Failed (ConnectionError "Not connected to server") in
  let all_refused (cl' : Client) :=
    (∀ filters ets, refused (client_subscribe filters ets cl')) ∧
    (∀ sid pd pi arch, refused (client_submit_proof sid pd pi arch cl')) ∧
    (∀ spec, refused (client_create_stream spec cl')) in
  (c_connected cl = false ∨ c_websocket cl = None → all_refused cl) ∧
  all_refused (disconnect cl).
Proof.
  cbv zeta.
  assert (∀ cl', c_connected cl' = false ∨ c_websocket cl' = None →
            ∀ m, _send_message m cl' = Failed (ConnectionError "Not connected to server"))
    as Hsend.
  { intros cl' [H | H] m; unfold _send_message; rewrite H; [done|].
    by destruct (c_connected cl'). }
  assert (c_connected (disconnect cl) = false ∨ c_websocket (disconnect cl) = None) as Hd.
  { unfold disconnect. destruct (c_websocket cl) eqn:E; [by left | by right]. }
  split; [intros H|]; repeat split; intros; by apply Hsend.
Qed.

Lemma client_requests_need_connection_witness :
  c_connected (disconnect fresh_client) = false ∧
  client_create_stream (VDict []) (disconnect fresh_client)
  = Failed (ConnectionError "Not connected to server").
Proof.
  assert (c_connected (disconnect fresh_client) = false
          ∨ c_websocket (disconnect fresh_client) = None) as H by (by left).
  split; [reflexivity|].
  destruct (client_requests_need_connection (disconnect fresh_client)) as [Hr _].
  exact (proj2 (proj2 (Hr H)) (VDict [])).
Defined.

(** X27.  [subscribe(filters, event_types)]: a non-empty [event_types]
    argument is what the request says under ["event_types"], replacing an
    entry of that name in [filters]; with no such argument the filter is
    sent as given ([{}] for [None]).  The other entries of [filters] are
    sent unchanged.  A non-empty [filters] dictionary of the caller is
    modified in place by this. *)
Theorem subscribe_event_types_argument (filters : option (list (string * value)))
    (event_types : option (list string)) :
  (∀ t ts, event_types = Some (t :: ts) →
     od_lookup "event_types" (subscribe_filter filters event_types)
     = Some (VList (map VStr (t :: ts))) ∧
     (∀ k, k ≠ "event_types" →
        od_lookup k (subscribe_filter filters event_types)
        = od_lookup k (match filters with Some d => d | None => [] end)) ∧
     (∀ x d, filters = Some (x :: d) →
        filters_after_subscribe filters event_types
        = Some (dict_set "event_types" (VList (map VStr (t :: ts))) (x :: d)))) ∧
  (event_types = None ∨ event_types = Some [] →
     subscribe_filter filters event_types
     = match filters with Some d => d | None => [] end ∧
     filters_after_subscribe filters event_types = filters) ∧
  (∀ sock, sock_ok sock = true →
     client_subscribe filters event_types (mkClient (Some sock) true)
     = Done (mkClient
               (Some (mkClientSocket true
                        (sock_sent sock
                         ++ [VDict [("type", VStr "subscribe");
                                    ("filter",
                                     VDict (subscribe_filter filters event_types))]])))
               true)).
Proof.
  split; [|split].
  - intros t ts ->. unfold subscribe_filter, dict_set. split; [|split].
    + by rewrite od_lookup_alter.
    + intros k Hk. rewrite od_lookup_alter_other by done.
      by destruct filters as [[|x d]|].
    + by intros x d ->.
  - intros [-> | ->]; unfold subscribe_filter, filters_after_subscribe;
      by destruct filters as [[|x d]|].
  - intros sock Hok. unfold client_subscribe, _send_message. simpl. by rewrite Hok.
Qed.

Lemma subscribe_event_types_argument_witness :
  od_lookup "event_types"
    (subscribe_filter (Some demo_filters) (Some ["proof_submitted"]))
  = Some (VList [VStr "proof_submitted"]) ∧
  od_lookup "event_types" demo_filters = Some (VList [VStr "stream_created"]).
Proof.
  split; [|reflexivity].
  destruct (subscribe_event_types_argument (Some demo_filters)
              (Some ["proof_submitted"])) as [H _].
  exact (proj1 (H "proof_submitted" [] eq_refl)).
Defined.

(** ** Sample runs of the properties above *)

Lemma streams_are_never_removed_witness :
  is_Some (active_streams created_twice !! stream_of_c1) ∧
  is_Some (active_streams
             (exec (_handle_client sample_digest sample_str sample_float_str
        sample_encode_error
                      "c1" Healthy [(Object Ping, still_clock 9)]) created_twice)
           !! stream_of_c1).
Proof.
  assert (is_Some (active_streams created_twice !! stream_of_c1)) as H
    by (eexists; vm_compute; reflexivity).
  split; [exact H|].
  exact (proj2 (streams_are_never_removed sample_digest sample_str sample_float_str
        sample_encode_error
                  "c1" stream_of_c1 created_twice H) Healthy _).
Defined.

Lemma dropped_client_still_acts_witness :
  connected_clients after_submit !! "c1" = None ∧
  view "c1" (exec (_handle_client_message sample_digest sample_str sample_float_str
        sample_encode_error
                     "c1" (Object (CreateStream (VStr "s2"))) (still_clock 11))
                  after_submit)
  = view "c1" after_submit ∧
  is_Some (active_streams
             (exec (_handle_client_message sample_digest sample_str sample_float_str
        sample_encode_error
                      "c1" (Object (CreateStream (VStr "s2"))) (still_clock 11))
                   after_submit)
           !! make_stream_id sample_digest sample_str sample_float_str "c1"
                (VStr "s2") 11).
Proof.
  assert (connected_clients after_submit !! "c1" = None) as H
    by (vm_compute; reflexivity).
  split; [exact H|].
  destruct (dropped_client_still_acts sample_digest sample_str sample_float_str
        sample_encode_error
              "c1" after_submit H) as [Hview Hcreate].
  split; [apply Hview|].
  assert (sample_encode_error
            (stream_id_text sample_str sample_float_str "c1" (VStr "s2")
                            (still_clock 11 0)) = None) as Henc
    by (vm_compute; reflexivity).
  pose proof (Hcreate (VStr "s2") (still_clock 11) Henc) as Hk. cbv zeta in Hk.
  unfold still_clock in *. rewrite Hk. eauto.
Defined.

Lemma connection_leaves_no_entry_witness :
  registry_keys_distinct two_clients ∧
  connected_clients
    (exec (_handle_client sample_digest sample_str sample_float_str
        sample_encode_error
          "c5" Healthy
             [(Object (Subscribe empty_filter_data), still_clock 3);
              (Object (CreateStream (VDict [])), still_clock 4)]) two_clients)
    !! "c5" = None ∧
  od_lookup "c5"
    (client_subscriptions
       (exec (_handle_client sample_digest sample_str sample_float_str
        sample_encode_error
             "c5" Healthy
                [(Object (Subscribe empty_filter_data), still_clock 3);
                 (Object (CreateStream (VDict [])), still_clock 4)]) two_clients))
  = None.
Proof.
  assert (registry_keys_distinct two_clients) as H.
  { unfold registry_keys_distinct.
    assert (map fst (client_subscriptions two_clients) = ["c2"]) as ->
      by (vm_compute; reflexivity).
    apply NoDup_singleton. }
  split; [exact H|].
  destruct (connection_leaves_no_entry sample_digest sample_str sample_float_str
        sample_encode_error
              "c5" Healthy
              [(Object (Subscribe empty_filter_data), still_clock 3);
               (Object (CreateStream (VDict [])), still_clock 4)] two_clients H)
    as (_ & Hc & Hl & _).
  split; [exact Hc | exact Hl].
Defined.
